(** * image-ocr-csv: the extraction-and-reconciliation pipeline of ocr_gui.py

    A shallow embedding of [OCRProcessor] (parse_xml_regions,
    load_brand_mapping, load_existing_records, call_ocr_api,
    extract_part_numbers, process_image, save_to_csv), of
    [ProcessorThread.run] and of [MainWindow.deduplicate_csv], with the
    properties the specification states about them and further properties
    read off the code.

    Modelling conventions.
    - A Python [str] is a [list ascii].  Character classes and case mapping
      are Python's on the 7-bit ASCII range; codes above 127 are opaque
      (caseless, neither space nor word character).
    - A [dict] is a [gmap], a [set] is a [gset].
    - The CSV file is modelled at the level of the rows that [csv.writer]
      writes and [csv.reader] reads back; [None] is the absent file.
    - Exceptions are explicit: a call either returns a value or raises. *)

From Stdlib Require Import ZArith Ascii String DecimalString.
From stdpp Require Import gmap strings list sorting.

#[local] Set Warnings "-clear-no-such-hyp".

Local Open Scope bool_scope.

(** ** Python strings *)

Abbreviation str := (list ascii).

(** String literals of the source, as lists of characters. *)
Definition py (s : string) : str := list_ascii_of_string s.

Module PyStr.

Definition code (c : ascii) : nat := nat_of_ascii c.

Definition between (lo hi : nat) (c : ascii) : bool :=
  (lo <=? code c)%nat && (code c <=? hi)%nat.

Definition is_lower (c : ascii) : bool := between 97 122 c.
Definition is_upper (c : ascii) : bool := between 65 90 c.
Definition is_digit (c : ascii) : bool := between 48 57 c.
Definition is_alpha (c : ascii) : bool := is_lower c || is_upper c.
Definition is_alnum (c : ascii) : bool := is_alpha c || is_digit c.

(** [str.isspace] on one character: TAB LF VT FF CR, the four
    separators FS GS RS US, and the blank. *)
Definition isspace (c : ascii) : bool :=
  between 9 13 c || between 28 31 c || (code c =? 32)%nat.

Definition upper_char (c : ascii) : ascii :=
  if is_lower c then ascii_of_nat (code c - 32) else c.

Definition lower_char (c : ascii) : ascii :=
  if is_upper c then ascii_of_nat (code c + 32) else c.

(** [s.upper()] *)
Definition upper (s : str) : str := map upper_char s.

(** [s.lstrip()], [s.rstrip()], [s.strip()] *)
Fixpoint lstrip (s : str) : str :=
  match s with
  | c :: s' => if isspace c then lstrip s' else s
  | [] => []
  end.

Definition rstrip (s : str) : str := rev (lstrip (rev s)).

Definition strip (s : str) : str := rstrip (lstrip s).

(** [s.startswith(c)] and [s.lstrip(c)] for a one-character argument. *)
Definition startswith (s : str) (c : ascii) : bool :=
  match s with
  | x :: _ => Ascii.eqb x c
  | [] => false
  end.

Fixpoint lstrip_char (s : str) (c : ascii) : str :=
  match s with
  | x :: s' => if Ascii.eqb x c then lstrip_char s' c else s
  | [] => []
  end.

(** [c in s] for a character [c]. *)
Definition contains (c : ascii) (s : str) : bool := existsb (Ascii.eqb c) s.

(** [s.replace(c, '')] for a one-character [c]. *)
Definition remove_char (s : str) (c : ascii) : str :=
  List.filter (fun x => negb (Ascii.eqb x c)) s.

(** Truthiness of a string: [if s]. *)
Definition truthy (s : str) : bool :=
  match s with [] => false | _ :: _ => true end.

Definition eqb (a b : str) : bool := bool_decide (a = b).

(** [s.split()]: the maximal runs of non-space characters.  [cur] is the
    run being read, in reverse. *)
Fixpoint split_from (cur : str) (s : str) : list str :=
  match s with
  | [] => match cur with [] => [] | _ => [rev cur] end
  | c :: s' =>
      if isspace c
      then match cur with
           | [] => split_from [] s'
           | _ => rev cur :: split_from [] s'
           end
      else split_from (c :: cur) s'
  end.

Definition split (s : str) : list str := split_from [] s.

(** [sep.join(parts)] *)
Fixpoint join (sep : str) (parts : list str) : str :=
  match parts with
  | [] => []
  | [p] => p
  | p :: ps => p ++ sep ++ join sep ps
  end.

End PyStr.

(** ** VariantExpander: the variant block of [process_image] (lines 293-315) *)

Definition special_chars : str := py "-./_".

(** [for char in special_chars: cleaned_pn = cleaned_pn.replace(char, '')] *)
Definition remove_special (part_number : str) : str :=
  fold_left PyStr.remove_char special_chars part_number.

(** [any(char in part_number for char in special_chars)] *)
Definition has_special (part_number : str) : bool :=
  existsb (fun char => PyStr.contains char part_number) special_chars.

Definition zero : ascii := "0"%char.

(** [char in special_chars] *)
Definition is_special (c : ascii) : bool := PyStr.contains c special_chars.

Definition expand (part_number : str) : list str :=
  let pns_to_add := [part_number] in
  (* 1. leading-zero variant *)
  let pns_to_add :=
    if PyStr.startswith part_number zero then
      let stripped_pn := PyStr.lstrip_char part_number zero in
      if PyStr.truthy stripped_pn && negb (PyStr.eqb stripped_pn part_number)
      then pns_to_add ++ [stripped_pn]
      else pns_to_add
    else pns_to_add in
  (* 2. special-character variant *)
  if has_special part_number then
    let cleaned_pn := remove_special part_number in
    if PyStr.truthy cleaned_pn && negb (PyStr.eqb cleaned_pn part_number) then
      let pns_to_add := pns_to_add ++ [cleaned_pn] in
      if PyStr.startswith cleaned_pn zero then
        let stripped_cleaned := PyStr.lstrip_char cleaned_pn zero in
        if PyStr.truthy stripped_cleaned
           && negb (PyStr.eqb stripped_cleaned cleaned_pn)
        then pns_to_add ++ [stripped_cleaned]
        else pns_to_add
      else pns_to_add
    else pns_to_add
  else pns_to_add.

(** ** PartNumberExtractor: [extract_part_numbers] (lines 173-221) *)

(** The regular expression of line 209,
    [\b<brand_code>\s*([a-zA-Z0-9][a-zA-Z0-9\-\.\/_]+)] under
    [re.IGNORECASE], where [<brand_code>] is [re.escape(brand_code)], a
    literal.  Each component is one function below. *)
Module Re.

(** [\w] *)
Definition is_word (c : ascii) : bool :=
  PyStr.is_alnum c || Ascii.eqb c "_".

(** [\b] at a position: [prev] is the character before it (none at the
    start of the text) and [s] the text from it on. *)
Definition at_boundary (prev : option ascii) (s : str) : bool :=
  let thatp := match prev with Some c => is_word c | None => false end in
  let thisp := match s with c :: _ => is_word c | [] => false end in
  negb (Bool.eqb thisp thatp).

(** The escaped brand code: a literal compared character by character,
    ignoring case.  Returns the text after the literal. *)
Fixpoint match_literal (lit : str) (s : str) : option str :=
  match lit, s with
  | [], _ => Some s
  | l :: lit', c :: s' =>
      if Ascii.eqb (PyStr.lower_char l) (PyStr.lower_char c)
      then match_literal lit' s'
      else None
  | _ :: _, [] => None
  end.

(** [\s*], greedy.  What follows must be a letter or a digit, which is
    no space, so giving back spaces never lets the match succeed
    ([match_here_greedy] below). *)
Definition skip_spaces (s : str) : str := PyStr.lstrip s.

(** [[a-zA-Z0-9]] *)
Definition part_start (c : ascii) : bool := PyStr.is_alnum c.

(** [[a-zA-Z0-9\-\.\/_]] *)
Definition part_char (c : ascii) : bool :=
  PyStr.is_alnum c || PyStr.contains c (py "-./_").

(** The longest prefix of characters of a class (a greedy [+] or [*] at
    the end of the pattern). *)
Fixpoint take_class (cls : ascii -> bool) (s : str) : str :=
  match s with
  | c :: s' => if cls c then c :: take_class cls s' else []
  | [] => []
  end.

(** One attempt at a position: the captured group and the length of the
    whole match. *)
Definition match_here (brand_code : str) (prev : option ascii) (s : str)
  : option (str * nat) :=
  if at_boundary prev s then
    match match_literal brand_code s with
    | Some s1 =>
        let s2 := skip_spaces s1 in
        match s2 with
        | c :: s3 =>
            if part_start c then
              match take_class part_char s3 with
              | [] => None
              | run =>
                  Some (c :: run,
                        length brand_code + (length s1 - length s2)
                        + 1 + length run)
              end
            else None
        | [] => None
        end
    | None => None
    end
  else None.

(** [re.findall]: scan from the left; after a match the scan resumes at
    its end ([skip] counts the characters of the last match still to be
    passed), otherwise one character further. *)
Fixpoint findall_from (brand_code : str) (prev : option ascii) (skip : nat)
    (s : str) : list str :=
  match s with
  | [] => []
  | c :: s' =>
      match skip with
      | S k => findall_from brand_code (Some c) k s'
      | O =>
          match match_here brand_code prev s with
          | Some (group, n) =>
              group :: findall_from brand_code (Some c) (n - 1) s'
          | None => findall_from brand_code (Some c) 0 s'
          end
      end
  end.

Definition findall (brand_code : str) (text : str) : list str :=
  findall_from brand_code None 0 text.

(** What it means for the pattern to match at a position, whatever the
    order in which the engine tries: the text there is a copy [lit] of the
    brand code up to case, then spaces [sp], then the group, then [rest];
    the group is a letter or digit followed by at least one character of
    its class. *)
Definition matches_at (brand_code : str) (prev : option ascii) (s : str)
    (lit sp group rest : str) : Prop :=
  at_boundary prev s = true
  /\ s = lit ++ sp ++ group ++ rest
  /\ Forall2 (fun l c => PyStr.lower_char l = PyStr.lower_char c) brand_code lit
  /\ Forall (fun c => PyStr.isspace c = true) sp
  /\ exists c run,
       group = c :: run /\ part_start c = true /\ run <> []
       /\ Forall (fun x => part_char x = true) run.

End Re.

(** Lines 186-192: upper-case, trim, drop the empty ones, keep the first
    occurrence of each. *)
Definition add_brand_code (st : list str * gset str) (bc : str)
  : list str * gset str :=
  let '(unique_brand_codes, seen) := st in
  let bc_upper := PyStr.upper (PyStr.strip bc) in
  if PyStr.truthy bc_upper && negb (bool_decide (bc_upper ∈ seen))
  then (unique_brand_codes ++ [bc_upper], {[bc_upper]} ∪ seen)
  else (unique_brand_codes, seen).

Definition unique_brand_codes_of (brand_codes : list str) : list str :=
  fst (fold_left add_brand_code brand_codes ([], ∅)).

(** What the loop of lines 188-192 keeps of its list and set: no code
    twice, the set holding the codes of the list, each code non-empty and
    in normal form. *)
Definition codes_ok (st : list str * gset str) : Prop :=
  NoDup st.1
  /\ (forall y, y ∈ st.2 <-> y ∈ st.1)
  /\ Forall (fun x => x <> [] /\ PyStr.upper (PyStr.strip x) = x) st.1.

(** Lines 212-219: what one match contributes to [results]. *)
Definition keep_match (unique_brand_codes : list str) (brand_code : str)
    (results : list (str * str)) (group : str) : list (str * str) :=
  let part_number := PyStr.upper (PyStr.strip group) in
  if PyStr.truthy part_number
     && negb (bool_decide (part_number ∈ unique_brand_codes))
  then
    if (4 <=? length part_number)%nat
    then results ++ [(brand_code, part_number)]
    else results
  else results.

(** Lines 206-219: the loop over the brand codes. *)
Definition scan_brand_code (unique_brand_codes : list str) (text : str)
    (results : list (str * str)) (brand_code : str) : list (str * str) :=
  fold_left (keep_match unique_brand_codes brand_code)
    (Re.findall brand_code text) results.

(** [extract_part_numbers]; its two log lines (202-203) do not touch the
    result and are left out. *)
Definition extract_part_numbers (brand_codes : list str) (brand_part_text : str)
  : list (str * str) :=
  let results := [] in
  let unique_brand_codes := unique_brand_codes_of brand_codes in
  if negb (bool_decide (unique_brand_codes <> []))
     || negb (PyStr.truthy brand_part_text)
  then results
  else
    let text := PyStr.strip brand_part_text in
    let text := PyStr.join (py " ") (PyStr.split text) in
    fold_left (scan_brand_code unique_brand_codes text)
      unique_brand_codes results.

(** The normal form of a brand-code list in the words of the
    specification: upper-cased, trimmed, deduplicated keeping the first
    occurrence of each code. *)
Definition dedup_first (l : list str) : list str :=
  fold_left (fun acc x => if bool_decide (x ∈ acc) then acc else acc ++ [x]) l [].

Definition normalized_brand_codes (brand_codes : list str) : list str :=
  dedup_first (map (fun bc => PyStr.strip (PyStr.upper bc)) brand_codes).

(** ** Exceptions *)

(** The subclasses of [requests.exceptions.RequestException] that the
    calls of [call_ocr_api] raise: [post] the first two, [raise_for_status]
    the third, [json] the last (a [RequestException] since requests 2.27). *)
Inductive request_error :=
| ConnectionError
| Timeout
| HTTPError
| JSONDecodeError.

Inductive exn :=
| RequestException (e : request_error)
| AttributeError
| TypeError
| IndexError.

Inductive outcome (A : Type) :=
| Returned (a : A)
| Raised (e : exn).
Arguments Returned {A} a.
Arguments Raised {A} e.

#[global] Instance outcome_ret : MRet outcome := fun A a => Returned a.

#[global] Instance outcome_bind : MBind outcome := fun A B k m =>
  match m with
  | Returned a => k a
  | Raised e => Raised e
  end.

(** [for x in xs: acc = body(acc, x)], where the body may raise. *)
Fixpoint for_each {A S : Type} (body : S -> A -> outcome S) (xs : list A)
    (acc : S) : outcome S :=
  match xs with
  | [] => Returned acc
  | x :: xs' => acc' ← body acc x; for_each body xs' acc'
  end.

(** ** OCRClient: [call_ocr_api] (lines 120-171) *)

(** One recognised fragment of the service's answer in [dict] format: its
    keys ["text"] and ["box"], each possibly missing.  A box is a list of
    corner points, a point a list of integer coordinates. *)
Record ocr_item := {
  item_text : option str;
  item_box : option (list (list Z))
}.

(** The value under ["data"]: a string, a list of fragments, or [null]. *)
Inductive ocr_data :=
| DataText (s : str)
| DataItems (items : list ocr_item)
| DataNull.

(** The body of the answer as [response.json()] sees it: not JSON, JSON
    that is no object, or an object, of which the function reads ["code"]
    ([None] when the key is missing or holds no integer) and ["data"]. *)
Inductive json_body :=
| NotJson
| NotDict
| Dict (code : option Z) (data : option ocr_data).

(** What [requests.post] does: it raises, or it returns a response with
    an HTTP status and a body. *)
Inductive http_reply :=
| NoReply (e : request_error)
| Reply (status_code : Z) (body : json_body).

Record request := {
  base64 : str;
  data_format : str
}.

(** [Response.raise_for_status] of the requests library: it raises
    [HTTPError] for the client and server error statuses, 400 to 599. *)
Definition raise_for_status (status_code : Z) : bool :=
  (400 <=? status_code)%Z && (status_code <? 600)%Z.

Inductive ocr_result :=
| Text (s : str)
| Lines (l : list str).

(** [result.get('code') == n] *)
Definition code_is (code : option Z) (n : Z) : bool :=
  match code with
  | Some c => (c =? n)%Z
  | None => false
  end.

(** [box[0][1] if box else 0], with [box = item.get('box', [[0, 0]])]. *)
Definition y_pos_of (item : ocr_item) : outcome Z :=
  let box := default [[0; 0]%Z] (item_box item) in
  match box with
  | [] => Returned 0%Z
  | corner :: _ =>
      match corner with
      | _ :: y :: _ => Returned y
      | _ => Raised IndexError
      end
  end.

(** Lines 155-158: the body of the loop over the fragments. *)
Definition add_fragment (texts : list (Z * str)) (item : ocr_item)
  : outcome (list (Z * str)) :=
  let text := PyStr.strip (default [] (item_text item)) in
  y_pos ← y_pos_of item;
  Returned (texts ++ [(y_pos, text)]).

(** [texts.sort(key=lambda x: x[0])]: [list.sort] is stable, and the
    stable sorted arrangement of a list is unique ([stable_sort_unique]
    below), so any stable sort computes it; this one inserts each element
    before the first one with a key that is not smaller. *)
Fixpoint insert_by_key (x : Z * str) (l : list (Z * str)) : list (Z * str) :=
  match l with
  | [] => [x]
  | y :: l' =>
      if (fst x <=? fst y)%Z then x :: l else y :: insert_by_key x l'
  end.

Fixpoint sort_by_key (l : list (Z * str)) : list (Z * str) :=
  match l with
  | [] => []
  | x :: l' => insert_by_key x (sort_by_key l')
  end.

(** The order of the sort keys. *)
Definition key_le (a b : Z * str) : Prop := (a.1 <= b.1)%Z.

(** [for item in data: ...] of the lines mode: a string is iterated
    character by character and a character has no [get]; [null] is not
    iterable. *)
Definition fragments_of (data : ocr_data) : outcome (list (Z * str)) :=
  match data with
  | DataItems items => for_each add_fragment items []
  | DataText [] => Returned []
  | DataText (_ :: _) => Raised AttributeError
  | DataNull => Raised TypeError
  end.

Definition empty_result (return_text : bool) : ocr_result :=
  if return_text then Text [] else Lines [].

(** The body of the [try] (lines 128-167). *)
Definition call_ocr_api_try (service : request -> http_reply)
    (base64_image : str) (return_text : bool) : outcome ocr_result :=
  let payload :=
    {| base64 := base64_image;
       data_format := if return_text then py "text" else py "dict" |} in
  match service payload with
  | NoReply e => Raised (RequestException e)
  | Reply status_code body =>
      if raise_for_status status_code then Raised (RequestException HTTPError)
      else
        match body with
        | NotJson => Raised (RequestException JSONDecodeError)
        | NotDict => Raised AttributeError
        | Dict code data =>
            if code_is code 100 then
              let data := default (DataItems []) data in
              if return_text then
                Returned (Text (match data with DataText s => s | _ => [] end))
              else
                texts ← fragments_of data;
                let texts := sort_by_key texts in
                Returned
                  (Lines (map snd (List.filter (fun t => PyStr.truthy (snd t)) texts)))
            else if code_is code 101 then Returned (empty_result return_text)
            else Returned (empty_result return_text)
        end
  end.

(** [except requests.exceptions.RequestException] (lines 169-171). *)
Definition call_ocr_api (service : request -> http_reply)
    (base64_image : str) (return_text : bool) : outcome ocr_result :=
  match call_ocr_api_try service base64_image return_text with
  | Raised (RequestException _) => Returned (empty_result return_text)
  | o => o
  end.

(** ** Logging *)

(** [self.log(message, level)]: a line of the log is its message and its
    level. *)
Definition log_line : Type := str * str.

(** [str(n)] for a natural number. *)
Definition str_of_nat (n : nat) : str :=
  py (NilEmpty.string_of_uint (Nat.to_uint n)).

(** ** RecordStore: the output table *)

(** A row is the list of its fields; the CSV file is the list of its rows,
    [None] while the file does not exist. *)
Abbreviation csv_row := (list str).
Abbreviation csv_table := (list csv_row).

(** The record of line 319, a 6-tuple, which is also the key of the
    duplicate checks, and the 7-tuple [record + (source_file,)] that is
    written. *)
Definition record_key : Type := str * str * str * str * str * str.
Definition OutputRecord : Type := record_key * str.

Definition key_of (r : OutputRecord) : record_key := fst r.
Definition sourceFile (r : OutputRecord) : str := snd r.
Definition universalBrand (r : OutputRecord) : str :=
  let '(_, _, _, universal_brand, _, _, _) := r in universal_brand.
Definition brandCode (r : OutputRecord) : str :=
  let '(_, _, _, _, brand_code, _, _) := r in brand_code.
Definition partNumber (r : OutputRecord) : str :=
  let '(_, _, _, _, _, pn, _) := r in pn.

(** The row [csv.writer] writes for a 7-tuple. *)
Definition row_of (r : OutputRecord) : csv_row :=
  let '(a, b, c, d, e, f, g) := r in [a; b; c; d; e; f; g].

Definition header_row : csv_row :=
  [py "主品牌编码"; py "转换码"; py "英文名称"; py "通用品牌"; py "品牌编码";
   py "通用编码"; py "来源文件"].

(** [save_to_csv] (lines 350-361): opening for append creates the file. *)
Definition save_to_csv (records : list OutputRecord) (file : option csv_table)
  : option csv_table :=
  let file_exists := bool_decide (is_Some file) in
  let f := default [] file in
  let f := if negb file_exists then f ++ [header_row] else f in
  Some (f ++ map row_of records).

(** Lines 607-614 of [deduplicate_csv]: the first row is read apart and
    kept only if it is not empty. *)
Definition read_rows (file : csv_table) : list csv_row :=
  match file with
  | [] => []
  | header :: rest =>
      (if bool_decide (header <> []) then [header] else []) ++ rest
  end.

(** The data rows of a file as [deduplicate_csv] reads it: the rows after
    the one it keeps as the header. *)
Definition data_rows (file : csv_table) : list csv_row := tail (read_rows file).

(** Lines 624-629: the body of the loop over [rows[1:]]. *)
Definition dedup_row (st : gset csv_row * list csv_row) (row : csv_row)
  : gset csv_row * list csv_row :=
  let '(seen, unique_rows) := st in
  if (6 <=? length row)%nat then
    let key := take 6 row in
    if bool_decide (key ∈ seen) then st
    else ({[key]} ∪ seen, unique_rows ++ [row])
  else st.

(** [deduplicate_csv] (lines 597-645), with the lines it logs. *)
Definition deduplicate_csv (file : option csv_table)
  : option csv_table * list log_line :=
  match file with
  | None => (None, [(py "CSV文件不存在，无需去重", py "warning")])
  | Some content =>
      match read_rows content with
      | [] | [_] => (file, [(py "CSV文件为空，无需去重", py "info")])
      | (row0 :: data) as rows =>
          let '(seen, unique_rows) := fold_left dedup_row data (∅, [row0]) in
          let removed_count := (length rows - length unique_rows)%nat in
          if (removed_count =? 0)%nat
          then (file, [(py "没有发现重复记录", py "info")])
          else
            (Some unique_rows,
             [(py "去重完成，删除了 " ++ str_of_nat removed_count
               ++ py " 条重复记录，保留 "
               ++ str_of_nat (length unique_rows - 1) ++ py " 条记录",
               py "success")])
      end
  end.

(** ** PipelineOrchestrator: [process_image] (lines 223-348) *)

(** The state of the loop of lines 286-331. *)
Record assembly := {
  new_records : list OutputRecord;
  seen_in_image : gset record_key;
  logged : list log_line
}.

Definition unmapped_warning (brand_code : str) : log_line :=
  (py "  ⚠️ 警告: 品牌编码 [" ++ brand_code
   ++ py "] 在 brandCode.csv 中未找到映射，已自动设为相同值",
   py "warning").

Section Assembly.

Variables main_brand_code convert_code english_name : str.
Variable brand_mapping : gmap str str.
Variable source_file : str.

(** Lines 318-331: one variant. *)
Definition add_variant (universal_brand brand_code : str) (st : assembly)
    (pn : str) : assembly :=
  let record :=
    (main_brand_code, convert_code, english_name, universal_brand,
     brand_code, pn) in
  if negb (bool_decide (record ∈ seen_in_image st)) then
    {| new_records := new_records st ++ [(record, source_file)];
       seen_in_image := {[record]} ∪ seen_in_image st;
       logged := logged st |}
  else st.

(** Lines 286-331: one extracted pair. *)
Definition add_pair (st : assembly) (pair : str * str) : assembly :=
  let '(brand_code, part_number) := pair in
  let '(universal_brand, st) :=
    match brand_mapping !! brand_code with
    | Some universal_brand => (universal_brand, st)
    | None =>
        (brand_code,
         {| new_records := new_records st;
            seen_in_image := seen_in_image st;
            logged := logged st ++ [unmapped_warning brand_code] |})
    end in
  let pns_to_add := expand part_number in
  fold_left (add_variant universal_brand brand_code) pns_to_add st.

Definition assemble_records (part_number_pairs : list (str * str))
  : assembly :=
  fold_left add_pair part_number_pairs
    {| new_records := []; seen_in_image := ∅; logged := [] |}.

(** The universal brand a brand code resolves to (lines 288-291), the
    record of a variant, and what holds of the records and the log all
    along the loop; used to state the properties of the loop. *)
Definition resolve (brand_code : str) : str :=
  match brand_mapping !! brand_code with
  | Some universal_brand => universal_brand
  | None => brand_code
  end.

Definition record_for (brand_code pn : str) : OutputRecord :=
  (main_brand_code, convert_code, english_name, resolve brand_code,
   brand_code, pn, source_file).

Definition assembly_ok (st : assembly) : Prop :=
  (forall r, r ∈ new_records st ->
     universalBrand r = resolve (brandCode r)
     /\ (brand_mapping !! brandCode r = None ->
         unmapped_warning (brandCode r) ∈ logged st))
  /\ (forall k, k ∈ seen_in_image st -> (k, source_file) ∈ new_records st).

End Assembly.

(** The text read off the regions (lines 233-250). *)
Record recognised := {
  brand_part_text : str;
  ocr_results : gmap str (list str)
}.

Definition text_of (r : ocr_result) : str :=
  match r with Text s => s | Lines _ => [] end.

Definition lines_of (r : ocr_result) : list str :=
  match r with Lines l => l | Text _ => [] end.

(** [ocr_results.get(name, [''])[0] if ocr_results.get(name) else ''] *)
Definition single_value (ocr_results : gmap str (list str)) (name : str) : str :=
  match ocr_results !! name with
  | Some (x :: _) => x
  | _ => []
  end.

(** What [process_image] returns, without the message, and what it leaves
    behind: the output file and the warnings it logged. *)
Record processed := {
  success : bool;
  records_count : nat;
  output_csv : option csv_table;
  warnings : list log_line
}.

Section ProcessImage.

(** [self.regions], in the order of the dictionary, [self.brand_mapping]
    and the OCR service. *)
Variable regions : list (str * (Z * Z * Z * Z)).
Variable brand_mapping : gmap str str.
Variable service : request -> http_reply.

(** The opened image, as the Base64 text of each of its crops
    ([crop_region] followed by [image_to_base64]). *)
Variable image : Z * Z * Z * Z -> str.

(** Lines 236-250: one region. *)
Definition recognise_region (st : recognised)
    (entry : str * (Z * Z * Z * Z)) : outcome recognised :=
  let '(region_name, region_coords) := entry in
  let base64_img := image region_coords in
  if bool_decide (region_name = py "品牌编码及件号") then
    r ← call_ocr_api service base64_img true;
    Returned {| brand_part_text := text_of r;
                ocr_results := ocr_results st |}
  else
    r ← call_ocr_api service base64_img false;
    Returned {| brand_part_text := brand_part_text st;
                ocr_results := <[region_name := lines_of r]> (ocr_results st) |}.

(** Lines 228-346, from the opened image to the saved records; the move
    of the image to the archive is outside the model. *)
Definition process_image_try (image_name : str) (file : option csv_table)
  : outcome processed :=
  st ← for_each recognise_region regions
         {| brand_part_text := []; ocr_results := ∅ |};
  let main_brand_code :=
    PyStr.upper (PyStr.strip (single_value (ocr_results st) (py "主品牌编码"))) in
  let convert_code :=
    PyStr.upper (PyStr.strip (single_value (ocr_results st) (py "转换码"))) in
  let english_name :=
    PyStr.upper (PyStr.strip (single_value (ocr_results st) (py "英文名称"))) in
  let brand_codes := default [] (ocr_results st !! py "品牌编码") in
  let part_number_pairs :=
    extract_part_numbers brand_codes (brand_part_text st) in
  let source_file := image_name in
  let built :=
    assemble_records main_brand_code convert_code english_name
      brand_mapping source_file part_number_pairs in
  let file :=
    if bool_decide (new_records built <> [])
    then save_to_csv (new_records built) file
    else file in
  Returned {| success := true;
              records_count := length (new_records built);
              output_csv := file;
              warnings := logged built |}.

(** [except Exception] (lines 347-348). *)
Definition process_image (image_name : str) (file : option csv_table)
  : processed :=
  match process_image_try image_name file with
  | Returned r => r
  | Raised _ =>
      {| success := false; records_count := 0; output_csv := file;
         warnings := [] |}
  end.

End ProcessImage.

(** What the set [seen_in_image] is to the records along the loop: the
    keys of the records, none of them twice. *)
Definition assembly_distinct (st : assembly) : Prop :=
  NoDup (map key_of (new_records st))
  /\ (forall k, k ∈ seen_in_image st <-> k ∈ map key_of (new_records st)).

(** A field as the records carry it: trimmed and in upper case. *)
Definition normal_field (s : str) : Prop :=
  PyStr.upper s = s /\ PyStr.strip s = s.

(** The number of rows of a file after its first row. *)
Definition data_count (file : option csv_table) : nat :=
  length (tail (default [] file)).

(** ** BrandMap: [load_brand_mapping] (lines 70-84) *)

(** A loop whose body may raise inside a [try] that returns what was built
    so far: the state reached, and the exception that ended the loop if
    one did. *)
Fixpoint for_each_partial {A S : Type} (body : S -> A -> outcome S)
    (xs : list A) (acc : S) : S * option exn :=
  match xs with
  | [] => (acc, None)
  | x :: xs' =>
      match body acc x with
      | Returned acc' => for_each_partial body xs' acc'
      | Raised e => (acc, Some e)
      end
  end.

(** A row of [csv.DictReader]: the field names zipped with the fields of
    the row, a later column of the same name replacing an earlier one, and
    the names the row is too short for set to [None].  The fields a row
    has beyond the names go under the key [None], which the function,
    reading by name, never looks up; they are left out. *)
Fixpoint dict_of_row (fieldnames : list str) (row : csv_row)
    (d : gmap str (option str)) : gmap str (option str) :=
  match fieldnames with
  | [] => d
  | name :: fieldnames' =>
      match row with
      | field :: row' => dict_of_row fieldnames' row' (<[name := Some field]> d)
      | [] => dict_of_row fieldnames' [] (<[name := None]> d)
      end
  end.

(** [csv.DictReader(f)]: the first row gives the field names, the empty
    rows after it are skipped. *)
Definition DictReader (file : csv_table) : list (gmap str (option str)) :=
  match file with
  | [] => []
  | fieldnames :: rows =>
      map (fun row => dict_of_row fieldnames row ∅)
        (List.filter (fun row => negb (bool_decide (row = []))) rows)
  end.

(** [row.get(key, '').strip().upper()]; [None] has no [strip]. *)
Definition get_strip_upper (row : gmap str (option str)) (key : str)
  : outcome str :=
  match row !! key with
  | Some (Some value) => Returned (PyStr.upper (PyStr.strip value))
  | Some None => Raised AttributeError
  | None => Returned (PyStr.upper (PyStr.strip []))
  end.

(** Lines 77-80: the body of the loop over the rows. *)
Definition add_brand_row (mapping : gmap str str)
    (row : gmap str (option str)) : outcome (gmap str str) :=
  brand_code ← get_strip_upper row (py "品牌编码");
  universal_brand ← get_strip_upper row (py "通用品牌");
  Returned (if PyStr.truthy brand_code
            then <[brand_code := universal_brand]> mapping
            else mapping).

(** [load_brand_mapping]: [None] is the file that cannot be opened; an
    exception leaves the mapping as it was built up to then. *)
Definition load_brand_mapping (file : option csv_table) : gmap str str :=
  match file with
  | None => ∅
  | Some content => (for_each_partial add_brand_row (DictReader content) ∅).1
  end.

(** ** RecordStore: [load_existing_records] (lines 86-101) *)

Definition add_existing (records : gset csv_row) (row : csv_row) : gset csv_row :=
  if (6 <=? length row)%nat then {[take 6 row]} ∪ records else records.

Definition load_existing_records (file : option csv_table) : gset csv_row :=
  match file with
  | None => ∅
  | Some content => fold_left add_existing (tail content) ∅
  end.

(** ** ProcessorThread: [run] (lines 400-416) *)

(** An image of a batch: its name, its crops, and whether moving it to the
    archive raises. *)
Record batch_image := {
  batch_name : str;
  batch_crops : Z * Z * Z * Z -> str;
  move_raises : bool
}.

Section Batch.

Variable regions : list (str * (Z * Z * Z * Z)).
Variable brand_mapping : gmap str str.
Variable service : request -> http_reply.

(** [process_image] with the move of line 338: when [move_to_ok_folder]
    raises, the records are already saved and the call reports a failure
    with no record.  The writes to the table are taken to succeed. *)
Definition process_image_and_move (img : batch_image)
    (file : option csv_table) : processed :=
  match process_image_try regions brand_mapping service (batch_crops img)
          (batch_name img) file with
  | Returned r =>
      if move_raises img
      then {| success := false; records_count := 0;
              output_csv := output_csv r; warnings := warnings r |}
      else r
  | Raised _ =>
      {| success := false; records_count := 0; output_csv := file;
         warnings := [] |}
  end.

(** The loop of [run]: [running i] is the value of the flag [_running],
    which [stop] lowers from another thread, when the loop tests it before
    the image of rank [i].  The progress signals are left out. *)
Fixpoint run_from (running : nat -> bool) (i : nat) (images : list batch_image)
    (total_records : nat) (file : option csv_table)
  : nat * option csv_table :=
  match images with
  | [] => (total_records, file)
  | img :: images' =>
      if negb (running i) then (total_records, file)
      else
        let r := process_image_and_move img file in
        let total_records :=
          if success r then (total_records + records_count r)%nat
          else total_records in
        run_from running (S i) images' total_records (output_csv r)
  end.

(** [run]: the total it emits and the table it leaves. *)
Definition run (running : nat -> bool) (images : list batch_image)
    (file : option csv_table) : nat * option csv_table :=
  run_from running 0 images 0 file.

End Batch.

(** ** RegionConfig: [parse_xml_regions] (lines 50-68) *)

(** What the function reads of the parsed document.  A child element that
    [find] looks for is [None] when there is no such child, and otherwise
    its text, itself [None] for an element without text. *)
Record xml_bndbox := {
  xmin_child : option (option str);
  ymin_child : option (option str);
  xmax_child : option (option str);
  ymax_child : option (option str)
}.

Record xml_object := {
  name_child : option (option str);
  bndbox_child : option xml_bndbox
}.

Section Regions.

(** [int] on a string: [None] when it raises [ValueError]. *)
Variable int : str -> option Z.

(** [int(bndbox.find(tag).text)]: it raises when there is no such child
    ([None] has no [text]), when the child has no text ([int(None)]) and
    when the text is no number.  [None] stands for any of these. *)
Definition int_of_child (child : option (option str)) : option Z :=
  match child with
  | Some (Some text) => int text
  | _ => None
  end.

(** Lines 58-64: the name and the rectangle of one object; [None] when
    one of the steps raises. *)
Definition region_of (obj : xml_object)
  : option (option str * (Z * Z * Z * Z)) :=
  name ← name_child obj;
  bndbox ← bndbox_child obj;
  xmin ← int_of_child (xmin_child bndbox);
  ymin ← int_of_child (ymin_child bndbox);
  xmax ← int_of_child (xmax_child bndbox);
  ymax ← int_of_child (ymax_child bndbox);
  Some (name, (xmin, ymin, xmax, ymax)).

(** The loop of lines 57-64 inside the [try]: an exception ends it and
    leaves the regions read so far. *)
Fixpoint load_regions (objects : list xml_object)
    (regions : gmap (option str) (Z * Z * Z * Z))
  : gmap (option str) (Z * Z * Z * Z) :=
  match objects with
  | [] => regions
  | obj :: objects' =>
      match region_of obj with
      | Some (name, rectangle) =>
          load_regions objects' (<[name := rectangle]> regions)
      | None => regions
      end
  end.

(** [parse_xml_regions]: the document is the list of the [object]
    children of its root, [None] when [ET.parse] raises. *)
Definition parse_xml_regions (document : option (list xml_object))
  : gmap (option str) (Z * Z * Z * Z) :=
  match document with
  | None => ∅
  | Some objects => load_regions objects ∅
  end.

End Regions.

(** [int] on plain decimal digits, where it is the number they write; an
    instance of the parameter above for the examples. *)
Definition int_of_digits (text : str) : option Z :=
  match text with
  | [] => None
  | _ =>
      fold_left
        (fun acc c =>
           n ← acc;
           if PyStr.is_digit c
           then Some (10 * n + Z.of_nat (PyStr.code c - 48))%Z
           else None)
        text (Some 0%Z)
  end.

(* ================================================================= *)
(** * Properties *)

(** ** Characters and strings *)

Lemma upper_char_idemp c : PyStr.upper_char (PyStr.upper_char c) = PyStr.upper_char c.
Proof. destruct c as [[] [] [] [] [] [] [] []]; reflexivity. Qed.

Lemma isspace_upper_char c : PyStr.isspace (PyStr.upper_char c) = PyStr.isspace c.
Proof. destruct c as [[] [] [] [] [] [] [] []]; reflexivity. Qed.

Lemma upper_idemp s : PyStr.upper (PyStr.upper s) = PyStr.upper s.
Proof.
  unfold PyStr.upper. rewrite <- list_fmap_compose.
  apply list_fmap_ext; intros _ c _; apply upper_char_idemp.
Qed.


Lemma lstrip_upper s : PyStr.lstrip (PyStr.upper s) = PyStr.upper (PyStr.lstrip s).
Proof.
  induction s as [|c s IH]; [reflexivity|]. simpl.
  rewrite isspace_upper_char. destruct (PyStr.isspace c); [exact IH | reflexivity].
Qed.

Lemma upper_rev s : PyStr.upper (rev s) = rev (PyStr.upper s).
Proof. apply List.map_rev. Qed.

Lemma rstrip_upper s : PyStr.rstrip (PyStr.upper s) = PyStr.upper (PyStr.rstrip s).
Proof.
  unfold PyStr.rstrip. by rewrite <- upper_rev, lstrip_upper, upper_rev.
Qed.

Lemma strip_upper s : PyStr.strip (PyStr.upper s) = PyStr.upper (PyStr.strip s).
Proof. unfold PyStr.strip. by rewrite lstrip_upper, rstrip_upper. Qed.

(** ** VariantExpander *)

Lemma remove_special_filter s :
  remove_special s = List.filter (fun c => negb (is_special c)) s.
Proof.
  unfold remove_special. simpl. unfold PyStr.remove_char.
  induction s as [|c s IH]; [reflexivity|]. simpl.
  destruct c as [[] [] [] [] [] [] [] []]; simpl; rewrite ?IH; reflexivity.
Qed.

Lemma has_special_exists s : has_special s = existsb is_special s.
Proof.
  apply Bool.eq_iff_eq_true.
  unfold has_special, is_special, PyStr.contains.
  rewrite !existsb_exists. split.
  - intros (ch & Hch & Hex). apply existsb_exists in Hex as (x & Hx & Heq).
    apply Ascii.eqb_eq in Heq; subst x. exists ch; split; [done|].
    apply existsb_exists. exists ch; split; [done | apply Ascii.eqb_refl].
  - intros (x & Hx & Hex). apply existsb_exists in Hex as (ch & Hch & Heq).
    apply Ascii.eqb_eq in Heq; subst ch. exists x; split; [done|].
    apply existsb_exists. exists x; split; [done | apply Ascii.eqb_refl].
Qed.

Lemma has_special_remove_special s : has_special (remove_special s) = false.
Proof.
  rewrite has_special_exists, remove_special_filter.
  induction s as [|c s IH]; [reflexivity|]. simpl.
  destruct (is_special c) eqn:E; simpl; [exact IH|]. by rewrite E, IH.
Qed.

Lemma has_special_lstrip_zero s :
  has_special (PyStr.lstrip_char s zero) = has_special s.
Proof.
  rewrite !has_special_exists.
  induction s as [|c s IH]; [reflexivity|]. simpl.
  destruct (Ascii.eqb c zero) eqn:E; [|reflexivity].
  apply Ascii.eqb_eq in E; subst c. exact IH.
Qed.

Lemma has_special_differs a b : has_special a = true -> has_special b = false -> a <> b.
Proof. intros Ha Hb ->. congruence. Qed.

(** What a rule's guard [v and v != w] gives when it holds. *)
Lemma guard_true v w :
  PyStr.truthy v && negb (PyStr.eqb v w) = true -> v <> [] /\ v <> w.
Proof.
  intros [Hv Hne]%andb_true_iff. apply negb_true_iff in Hne.
  unfold PyStr.eqb in Hne. apply bool_decide_eq_false in Hne.
  split; [|done]. by destruct v.
Qed.

Ltac expand_cases P :=
  unfold expand;
  pose proof (has_special_remove_special P) as Hclean;
  pose proof (has_special_lstrip_zero P) as Hstrip;
  pose proof (has_special_lstrip_zero (remove_special P)) as Hboth;
  rewrite Hclean in Hboth;
  destruct (PyStr.startswith P zero);
  [destruct (PyStr.truthy (PyStr.lstrip_char P zero)
             && negb (PyStr.eqb (PyStr.lstrip_char P zero) P)) eqn:G1;
   [apply guard_true in G1 as [? ?]|] |];
  (destruct (has_special P) eqn:Hsp;
   [destruct (PyStr.truthy (remove_special P)
              && negb (PyStr.eqb (remove_special P) P)) eqn:G2;
    [apply guard_true in G2 as [? ?];
     destruct (PyStr.startswith (remove_special P) zero);
     [destruct (PyStr.truthy (PyStr.lstrip_char (remove_special P) zero)
                && negb (PyStr.eqb (PyStr.lstrip_char (remove_special P) zero)
                           (remove_special P))) eqn:G3;
      [apply guard_true in G3 as [? ?]|] |] |] |]).

(** C4: for every part number P, the variants of [expand P] start with P
    and no two of them are equal. *)
Theorem expand_first_and_distinct (P : str) :
  head (expand P) = Some P /\ NoDup (expand P).
Proof.
  expand_cases P; (split; [reflexivity|]); simpl;
    repeat (apply NoDup_cons; split);
    try apply NoDup_nil_2; rewrite ?not_elem_of_cons;
    repeat split; try apply not_elem_of_nil; try done;
    try (apply has_special_differs; congruence);
    try (apply not_eq_sym, has_special_differs; congruence).
Qed.

(** C10: for every part number P, [expand P] has at most 4 variants, each
    one of: P, P without its leading zeros, P without the characters
    - . / _, and the latter without its leading zeros. *)
Theorem expand_at_most_four (P : str) :
  (length (expand P) <= 4)%nat /\
  Forall (fun v => v ∈ [P;
                        PyStr.lstrip_char P zero;
                        remove_special P;
                        PyStr.lstrip_char (remove_special P) zero])
         (expand P).
Proof.
  expand_cases P; (split; [simpl; lia|]);
    repeat apply Forall_cons_2; try apply Forall_nil_2; set_solver.
Qed.

(** The characters that [remove_special] removes are exactly - . / _ . *)
Lemma remove_special_spec (P : str) :
  remove_special P
  = List.filter (fun c => negb (bool_decide (c ∈ py "-./_"))) P.
Proof.
  rewrite remove_special_filter. induction P as [|c P IH]; [reflexivity|].
  simpl. rewrite IH. f_equal.
  destruct c as [[] [] [] [] [] [] [] []]; reflexivity.
Qed.

(** The two worked examples of the specification. *)
Example expand_007788 : expand (py "007788") = [py "007788"; py "7788"].
Proof. reflexivity. Qed.

Example expand_AB_12_34 : expand (py "AB-12.34") = [py "AB-12.34"; py "AB1234"].
Proof. reflexivity. Qed.

(** C2, as the code has it: the leading zero of "0AB-12" is stripped, with
    and without the punctuation; rule 1 looks at the first character only. *)
Theorem expand_0AB_12 :
  expand (py "0AB-12") = [py "0AB-12"; py "AB-12"; py "0AB12"; py "AB12"].
Proof. reflexivity. Qed.

(** C2, as stated, fails: the variant with the leading zero removed is
    among the variants of "0AB-12". *)
Lemma expand_0AB_12_strips_zero :
  PyStr.lstrip_char (py "0AB-12") zero = py "AB-12"
  /\ ~ (py "AB-12" ∉ expand (py "0AB-12")).
Proof.
  split; [reflexivity|]. intros H. apply H.
  assert (expand (py "0AB-12") = [py "0AB-12"; py "AB-12"; py "0AB12"; py "AB12"])
    as -> by reflexivity.
  set_solver.
Qed.

(** ** PartNumberExtractor *)

(** A loop that only appends keeps what it had and adds elements of [Q]. *)
Lemma fold_left_appends {A X : Type} (f : list A -> X -> list A) (Q : A -> Prop) :
  (forall acc x p, p ∈ f acc x -> p ∈ acc \/ Q p) ->
  forall xs acc p, p ∈ fold_left f xs acc -> p ∈ acc \/ Q p.
Proof.
  intros Hf xs. induction xs as [|x xs IH]; intros acc p Hp; simpl in Hp.
  - by left.
  - apply IH in Hp as [Hp|Hp]; [|by right]. by apply Hf in Hp.
Qed.

Lemma dedup_first_elem (l : list str) (x : str) : x ∈ dedup_first l <-> x ∈ l.
Proof.
  unfold dedup_first.
  enough (forall acc, x ∈ fold_left
            (fun acc x => if bool_decide (x ∈ acc) then acc else acc ++ [x]) l acc
          <-> x ∈ acc \/ x ∈ l) as H.
  { rewrite H. set_solver. }
  induction l as [|y l IH]; intros acc; simpl.
  - set_solver.
  - rewrite IH. case_bool_decide; set_solver.
Qed.

Lemma add_brand_codes_elem (l : list str) (u : list str) (seen : gset str) (x : str) :
  (forall y, y ∈ seen <-> y ∈ u) ->
  x ∈ fst (fold_left add_brand_code l (u, seen))
  <-> x ∈ u \/ (x <> [] /\ x ∈ map (fun bc => PyStr.upper (PyStr.strip bc)) l).
Proof.
  revert u seen. induction l as [|b l IH]; intros u seen Hseen; simpl.
  - set_solver.
  - destruct (PyStr.truthy (PyStr.upper (PyStr.strip b))) eqn:Ht; simpl.
    + assert (PyStr.upper (PyStr.strip b) <> []) as Hne
        by (by destruct (PyStr.upper (PyStr.strip b))).
      case_bool_decide as Hin; simpl.
      * rewrite IH by done. apply Hseen in Hin. set_solver.
      * rewrite IH by set_solver. set_solver.
    + assert (PyStr.upper (PyStr.strip b) = []) as He
        by (by destruct (PyStr.upper (PyStr.strip b))).
      rewrite IH by done. rewrite He. set_solver.
Qed.

(** *** The regular expression: [match_here] against [matches_at] *)

Lemma match_literal_spec lit s s1 :
  Re.match_literal lit s = Some s1
  <-> exists pre, s = pre ++ s1
      /\ Forall2 (fun l c => PyStr.lower_char l = PyStr.lower_char c) lit pre.
Proof.
  revert s. induction lit as [|l lit IH]; intros s; simpl.
  - split.
    + intros [= ->]. exists []. split; [done | constructor].
    + intros (pre & -> & H). by inversion H.
  - destruct s as [|c s].
    + split; [done|]. intros (pre & E & H). inversion H; subst. done.
    + destruct (Ascii.eqb_spec (PyStr.lower_char l) (PyStr.lower_char c)) as [E|E].
      * rewrite IH. split.
        -- intros (pre & -> & H). exists (c :: pre). split; [done|]. by constructor.
        -- intros (pre & Hs & H). inversion H as [|? c' ? pre' Hc Hrest]; subst.
           injection Hs as -> ->. by exists pre'.
      * split; [done|]. intros (pre & Hs & H).
        inversion H as [|? c' ? pre' Hc Hrest]; subst. injection Hs as -> ->. done.
Qed.

Lemma lstrip_spec s :
  exists sp, s = sp ++ PyStr.lstrip s
             /\ Forall (fun c => PyStr.isspace c = true) sp.
Proof.
  induction s as [|c s (sp & E & H)]; simpl.
  - exists []. split; [done | constructor].
  - destruct (PyStr.isspace c) eqn:Hc.
    + exists (c :: sp). split; [by rewrite E at 1 | by constructor].
    + exists []. split; [done | constructor].
Qed.

Lemma lstrip_spaces_then sp c t :
  Forall (fun c => PyStr.isspace c = true) sp -> PyStr.isspace c = false ->
  PyStr.lstrip (sp ++ c :: t) = c :: t.
Proof.
  intros H Hc. induction H as [|x sp Hx _ IH]; simpl.
  - by rewrite Hc.
  - by rewrite Hx.
Qed.

Lemma take_class_all cls s : Forall (fun x => cls x = true) (Re.take_class cls s).
Proof.
  induction s as [|c s IH]; simpl; [constructor|].
  destruct (cls c) eqn:E; by constructor.
Qed.

Lemma take_class_split cls s : exists rest, s = Re.take_class cls s ++ rest.
Proof.
  induction s as [|c s [rest E]]; simpl; [by exists []|].
  destruct (cls c); [|by eexists]. exists rest. by rewrite E at 1.
Qed.

Lemma take_class_app cls run rest :
  Forall (fun x => cls x = true) run ->
  Re.take_class cls (run ++ rest) = run ++ Re.take_class cls rest.
Proof.
  intros H. induction H as [|x run Hx _ IH]; simpl; [done|].
  by rewrite Hx, IH.
Qed.

Lemma part_start_not_space c : Re.part_start c = true -> PyStr.isspace c = false.
Proof. destruct c as [[] [] [] [] [] [] [] []]; simpl; done. Qed.

(** What [match_here] returns is a match, and its length is that of the
    text matched. *)
Lemma match_here_sound brand_code prev s group n :
  Re.match_here brand_code prev s = Some (group, n) ->
  exists lit sp rest,
    Re.matches_at brand_code prev s lit sp group rest
    /\ n = (length lit + length sp + length group)%nat.
Proof.
  unfold Re.match_here, Re.skip_spaces.
  destruct (Re.at_boundary prev s) eqn:Hb; [|done].
  destruct (Re.match_literal brand_code s) as [s1|] eqn:Hl; [|done].
  apply match_literal_spec in Hl as (lit & -> & Hlit).
  destruct (lstrip_spec s1) as (sp & Hs1 & Hsp).
  destruct (PyStr.lstrip s1) as [|c s3] eqn:Hs2; [done|].
  destruct (Re.part_start c) eqn:Hc; [|done].
  pose proof (take_class_all Re.part_char s3) as Hrun.
  destruct (take_class_split Re.part_char s3) as [rest Hs3].
  destruct (Re.take_class Re.part_char s3) as [|x run] eqn:Ht; [done|].
  intros [= <- <-]. exists lit, sp, rest. split.
  - split; [done|]. split; [by rewrite Hs1, Hs3|].
    split; [done|]. split; [done|]. exists c, (x :: run). done.
  - apply Forall2_length in Hlit. rewrite Hs1, length_app. simpl. lia.
Qed.

(** Whenever the pattern matches at a position, [match_here] returns the
    match with the longest group: the spaces are forced, and of the
    possible groups, prefixes of one another, the greedy [+] takes the
    longest. *)
Lemma match_here_greedy brand_code prev s lit sp group rest :
  Re.matches_at brand_code prev s lit sp group rest ->
  exists more,
    Re.match_here brand_code prev s
    = Some (group ++ more, (length lit + length sp + length (group ++ more))%nat)
    /\ more = Re.take_class Re.part_char rest.
Proof.
  intros (Hb & -> & Hlit & Hsp & c & run & -> & Hc & Hne & Hrun).
  exists (Re.take_class Re.part_char rest). split; [|done].
  unfold Re.match_here, Re.skip_spaces. rewrite Hb.
  assert (Re.match_literal brand_code (lit ++ sp ++ (c :: run) ++ rest)
          = Some (sp ++ (c :: run) ++ rest)) as ->.
  { apply match_literal_spec. by exists lit. }
  cbn [app].
  rewrite (lstrip_spaces_then sp c (run ++ rest) Hsp (part_start_not_space c Hc)).
  rewrite Hc, take_class_app by done.
  destruct run as [|x run]; [done|]. simpl. f_equal. f_equal.
  apply Forall2_length in Hlit. rewrite !length_app. simpl.
  rewrite !length_app. lia.
Qed.

(** The unique brand codes are the non-empty normalised codes. *)
Lemma unique_brand_codes_elem (brand_codes : list str) (x : str) :
  x ∈ unique_brand_codes_of brand_codes
  <-> x <> [] /\ x ∈ normalized_brand_codes brand_codes.
Proof.
  unfold unique_brand_codes_of, normalized_brand_codes.
  rewrite add_brand_codes_elem by set_solver. rewrite dedup_first_elem.
  assert (map (fun bc => PyStr.strip (PyStr.upper bc)) brand_codes
          = map (fun bc => PyStr.upper (PyStr.strip bc)) brand_codes) as ->.
  { apply map_ext; intros; apply strip_upper. }
  set_solver.
Qed.

Lemma keep_match_elem U brand_code results group p :
  p ∈ keep_match U brand_code results group ->
  p ∈ results \/
  (PyStr.upper p.2 = p.2 /\ (p.2 ∉ U) /\ (4 <= length p.2)%nat).
Proof.
  unfold keep_match.
  destruct (PyStr.truthy _ && negb _) eqn:G; [|by left].
  apply andb_true_iff in G as [_ G]. apply negb_true_iff in G.
  apply bool_decide_eq_false in G.
  destruct (4 <=? _)%nat eqn:L; [|by left].
  apply Nat.leb_le in L.
  intros [Hp|Hp]%elem_of_app; [by left|]. right.
  apply list_elem_of_singleton in Hp; subst p; simpl.
  by rewrite upper_idemp.
Qed.

Lemma extract_part_numbers_elem brand_codes brand_part_text p :
  p ∈ extract_part_numbers brand_codes brand_part_text ->
  PyStr.upper p.2 = p.2
  /\ (p.2 ∉ unique_brand_codes_of brand_codes)
  /\ (4 <= length p.2)%nat.
Proof.
  unfold extract_part_numbers.
  destruct (negb _ || negb _); [by intros ?%elem_of_nil|].
  intros Hp.
  apply (fold_left_appends _
           (fun q => PyStr.upper q.2 = q.2
                     /\ (q.2 ∉ unique_brand_codes_of brand_codes)
                     /\ (4 <= length q.2)%nat)) in Hp.
  - destruct Hp as [Hp|Hp]; [by apply elem_of_nil in Hp | done].
  - intros acc bc q Hq. unfold scan_brand_code in Hq.
    revert Hq.
    apply (fold_left_appends _
             (fun q => PyStr.upper q.2 = q.2
                       /\ (q.2 ∉ unique_brand_codes_of brand_codes)
                       /\ (4 <= length q.2)%nat)).
    intros acc' g q'. apply keep_match_elem.
Qed.

(** C1: for every brand-code list B and text T, no pair returned by
    [extract_part_numbers B T] has a part number that, upper-cased, is a
    member of the normal form of B (upper-cased, trimmed, deduplicated),
    whether that form is the specification's or the list the code builds,
    and none has a part number shorter than 4 characters. *)
Theorem extract_never_brand_code_nor_short
    (B : list str) (T : str) (brand_code part_number : str) :
  (brand_code, part_number) ∈ extract_part_numbers B T ->
  (PyStr.upper part_number ∉ normalized_brand_codes B)
  /\ (PyStr.upper part_number ∉ unique_brand_codes_of B)
  /\ (4 <= length part_number)%nat.
Proof.
  intros (Hup & Hnot & Hlen)%extract_part_numbers_elem. simpl in *.
  rewrite Hup. repeat split; [|done..].
  intros Hin. apply Hnot, unique_brand_codes_elem. split; [|done].
  intros ->. simpl in Hlen. lia.
Qed.

Lemma extract_never_brand_code_nor_short_witness :
  (py "ACME", py "AB1234")
    ∈ extract_part_numbers [py "ACME"; py "ZED"]
        (py "ACME AB1234 foo ZED XY99 bar")
  /\ (PyStr.upper (py "AB1234") ∉ normalized_brand_codes [py "ACME"; py "ZED"])
  /\ (PyStr.upper (py "AB1234") ∉ unique_brand_codes_of [py "ACME"; py "ZED"])
  /\ (4 <= length (py "AB1234"))%nat.
Proof.
  assert ((py "ACME", py "AB1234")
            ∈ extract_part_numbers [py "ACME"; py "ZED"]
                (py "ACME AB1234 foo ZED XY99 bar")) as H.
  { vm_compute. apply list_elem_of_here. }
  split; [exact H|].
  exact (extract_never_brand_code_nor_short _ _ _ _ H).
Defined.

(** C8: on the brand codes ACME, ZED and the text
    "ACME AB1234 foo ZED XY99 bar" the extraction returns exactly
    (ACME, AB1234) and (ZED, XY99), in that order. *)
Theorem extract_acme_zed :
  extract_part_numbers [py "ACME"; py "ZED"] (py "ACME AB1234 foo ZED XY99 bar")
  = [(py "ACME", py "AB1234"); (py "ZED", py "XY99")].
Proof. vm_compute. reflexivity. Qed.

(** ** PipelineOrchestrator: the records of one image *)

Lemma expand_head (P : str) : exists rest, expand P = P :: rest.
Proof.
  unfold expand.
  repeat match goal with
         | |- context [if ?b then _ else _] => destruct b
         end; simpl; eauto.
Qed.

Section AssemblyFacts.

Variables main_brand_code convert_code english_name : str.
Variable brand_mapping : gmap str str.
Variable source_file : str.

Local Abbreviation add_variant' :=
  (add_variant main_brand_code convert_code english_name source_file).
Local Abbreviation add_pair' :=
  (add_pair main_brand_code convert_code english_name brand_mapping source_file).
Local Abbreviation resolve := (resolve brand_mapping).
Local Abbreviation record_for :=
  (record_for main_brand_code convert_code english_name brand_mapping source_file).
Local Abbreviation assembly_ok := (assembly_ok brand_mapping source_file).

Lemma add_variant_ok brand_code st pn :
  assembly_ok st ->
  (brand_mapping !! brand_code = None ->
   unmapped_warning brand_code ∈ logged st) ->
  let st' := add_variant' (resolve brand_code) brand_code st pn in
  assembly_ok st'
  /\ logged st' = logged st
  /\ (forall r, r ∈ new_records st -> r ∈ new_records st')
  /\ record_for brand_code pn ∈ new_records st'.
Proof.
  intros [Hrec Hseen] Hwarn. unfold add_variant. fold (record_for brand_code pn).
  change (main_brand_code, convert_code, english_name, resolve brand_code,
          brand_code, pn) with (key_of (record_for brand_code pn)).
  case_bool_decide as Hin; simpl.
  - split; [done|]. split; [done|]. split; [done|]. apply (Hseen _ Hin).
  - split; [split|]; simpl.
    + intros r' [Hr|Hr]%elem_of_app; [by apply Hrec|].
      apply list_elem_of_singleton in Hr. subst r'. split; [reflexivity|].
      exact Hwarn.
    + intros k [Hk|Hk]%elem_of_union; apply elem_of_app.
      * apply elem_of_singleton in Hk. subst k. right. set_solver.
      * left. by apply Hseen.
    + split; [done|]. split; [|set_solver].
      intros r' Hr. apply elem_of_app. by left.
Qed.

Lemma add_variants_ok brand_code pns st :
  assembly_ok st ->
  (brand_mapping !! brand_code = None ->
   unmapped_warning brand_code ∈ logged st) ->
  let st' := fold_left (add_variant' (resolve brand_code) brand_code) pns st in
  assembly_ok st'
  /\ logged st' = logged st
  /\ (forall r, r ∈ new_records st -> r ∈ new_records st')
  /\ (forall pn, pn ∈ pns -> record_for brand_code pn ∈ new_records st').
Proof.
  revert st. induction pns as [|pn pns IH]; intros st Hok Hwarn; simpl.
  - split; [done|]. split; [done|]. split; [done|].
    by intros ? ?%elem_of_nil.
  - destruct (add_variant_ok brand_code st pn Hok Hwarn)
      as (Hok1 & Hlog1 & Hmono1 & Hin1).
    destruct (IH _ Hok1) as (Hok2 & Hlog2 & Hmono2 & Hin2).
    { by rewrite Hlog1. }
    split; [done|]. split; [by rewrite Hlog2|]. split; [auto|].
    intros pn' [->|Hpn]%elem_of_cons; auto.
Qed.

Lemma add_pair_ok st brand_code part_number :
  assembly_ok st ->
  let st' := add_pair' st (brand_code, part_number) in
  assembly_ok st'
  /\ (forall r, r ∈ new_records st -> r ∈ new_records st')
  /\ record_for brand_code part_number ∈ new_records st'.
Proof.
  intros Hok. unfold add_pair.
  assert (forall st0, assembly_ok st0 ->
            (brand_mapping !! brand_code = None ->
             unmapped_warning brand_code ∈ logged st0) ->
            new_records st0 = new_records st ->
            let st' := fold_left (add_variant' (resolve brand_code) brand_code)
                         (expand part_number) st0 in
            assembly_ok st'
            /\ (forall r, r ∈ new_records st -> r ∈ new_records st')
            /\ record_for brand_code part_number ∈ new_records st') as Hgo.
  { intros st0 Hok0 Hwarn0 Heq.
    destruct (add_variants_ok brand_code (expand part_number) st0 Hok0 Hwarn0)
      as (H1 & _ & H3 & H4).
    split; [done|]. split.
    - intros r Hr. apply H3. by rewrite Heq.
    - apply H4. destruct (expand_head part_number) as [rest ->]. set_solver. }
  assert (resolve brand_code = match brand_mapping !! brand_code with
                               | Some u => u
                               | None => brand_code
                               end) as Hres by reflexivity.
  destruct (brand_mapping !! brand_code) as [u|] eqn:Hmap.
  - rewrite <- Hres. by apply Hgo.
  - replace (add_variant' brand_code brand_code)
      with (add_variant' (resolve brand_code) brand_code) by (by rewrite Hres).
    apply Hgo; simpl; [|set_solver|done].
    destruct Hok as [Hrec Hseen]. split; simpl; [|done].
    intros r Hr. destruct (Hrec r Hr) as [? Hw]. split; [done|].
    intros Hn. apply elem_of_app. left. by apply Hw.
Qed.

Lemma assemble_records_ok pairs :
  let built :=
    assemble_records main_brand_code convert_code english_name
      brand_mapping source_file pairs in
  assembly_ok built
  /\ (forall brand_code part_number,
        (brand_code, part_number) ∈ pairs ->
        record_for brand_code part_number ∈ new_records built).
Proof.
  unfold assemble_records.
  set (st0 := {| new_records := []; seen_in_image := ∅; logged := [] |}).
  assert (assembly_ok st0) as Hok0.
  { split; simpl; [by intros ? ?%elem_of_nil | by intros ? ?%elem_of_empty]. }
  enough (forall st, assembly_ok st ->
            let built := fold_left add_pair' pairs st in
            assembly_ok built
            /\ (forall r, r ∈ new_records st -> r ∈ new_records built)
            /\ (forall brand_code part_number,
                  (brand_code, part_number) ∈ pairs ->
                  record_for brand_code part_number ∈ new_records built)) as H.
  { destruct (H st0 Hok0) as (? & _ & ?). done. }
  induction pairs as [|[bc pn] pairs IH]; intros st Hok; simpl.
  - split; [done|]. split; [done|]. by intros ? ? ?%elem_of_nil.
  - destruct (add_pair_ok st bc pn Hok) as (Hok1 & Hmono1 & Hin1).
    destruct (IH _ Hok1) as (Hok2 & Hmono2 & Hin2).
    split; [done|]. split; [auto|].
    intros bc' pn' [Heq|Hin]%elem_of_cons; [|auto].
    injection Heq as -> ->. auto.
Qed.

End AssemblyFacts.

(** C7: every record assembled for an image carries, as its universal
    brand, the value the brand mapping has for its brand code, or the brand
    code itself when the mapping has none, in which case the warning for
    that brand code is in the log; and every extracted pair has its record
    among the assembled ones, mapped or not.  ([process_image_try] builds
    its records with [assemble_records].) *)
Theorem assembled_records_follow_mapping
    (main_brand_code convert_code english_name : str)
    (brand_mapping : gmap str str) (source_file : str)
    (part_number_pairs : list (str * str)) :
  let built :=
    assemble_records main_brand_code convert_code english_name
      brand_mapping source_file part_number_pairs in
  (forall r, r ∈ new_records built ->
     match brand_mapping !! brandCode r with
     | Some universal_brand => universalBrand r = universal_brand
     | None =>
         universalBrand r = brandCode r
         /\ unmapped_warning (brandCode r) ∈ logged built
     end)
  /\ (forall brand_code part_number,
        (brand_code, part_number) ∈ part_number_pairs ->
        exists r, r ∈ new_records built
                  /\ brandCode r = brand_code /\ partNumber r = part_number
                  /\ sourceFile r = source_file).
Proof.
  intros built.
  destruct (assemble_records_ok main_brand_code convert_code english_name
              brand_mapping source_file part_number_pairs) as [[Hrec _] Hall].
  fold built in Hrec, Hall. split.
  - intros r Hr. destruct (Hrec r Hr) as [Hub Hwarn]. unfold resolve in Hub.
    destruct (brand_mapping !! brandCode r); [done|]. split; [done|]. by apply Hwarn.
  - intros bc pn Hin. eexists. split; [by apply Hall|]. done.
Qed.

Lemma assembled_records_follow_mapping_witness :
  let brand_mapping : gmap str str := {[ py "ZED" := py "ZENITH" ]} in
  let built :=
    assemble_records (py "M") (py "C") (py "E") brand_mapping (py "a.png")
      [(py "ZED", py "0099-A"); (py "ACME", py "AB1234")] in
  let mapped : OutputRecord :=
    (py "M", py "C", py "E", py "ZENITH", py "ZED", py "99A", py "a.png") in
  let unmapped : OutputRecord :=
    (py "M", py "C", py "E", py "ACME", py "ACME", py "AB1234", py "a.png") in
  (mapped ∈ new_records built /\ universalBrand mapped = py "ZENITH")
  /\ (unmapped ∈ new_records built
      /\ universalBrand unmapped = brandCode unmapped
      /\ unmapped_warning (py "ACME") ∈ logged built)
  /\ (exists r, r ∈ new_records built
                /\ brandCode r = py "ACME" /\ partNumber r = py "AB1234"
                /\ sourceFile r = py "a.png").
Proof.
  intros brand_mapping built mapped unmapped.
  destruct (assembled_records_follow_mapping (py "M") (py "C") (py "E")
              brand_mapping (py "a.png")
              [(py "ZED", py "0099-A"); (py "ACME", py "AB1234")])
    as [Hrec Hall].
  fold built in Hrec, Hall.
  assert (mapped ∈ new_records built) as Hm.
  { apply list_elem_of_In. vm_compute. tauto. }
  assert (unmapped ∈ new_records built) as Hu.
  { apply list_elem_of_In. vm_compute. tauto. }
  split; [|split].
  - split; [exact Hm|]. exact (Hrec mapped Hm).
  - split; [exact Hu|]. exact (Hrec unmapped Hu).
  - apply Hall. apply list_elem_of_In. simpl. tauto.
Defined.

(** ** OCRClient: the sort of the lines mode *)

Lemma insert_by_key_perm x l : insert_by_key x l ≡ₚ x :: l.
Proof.
  induction l as [|a l IH]; simpl; [done|].
  destruct (x.1 <=? a.1)%Z; [done|]. rewrite IH. apply Permutation_swap.
Qed.

Lemma sort_by_key_perm l : sort_by_key l ≡ₚ l.
Proof.
  induction l as [|x l IH]; simpl; [done|].
  by rewrite insert_by_key_perm, IH.
Qed.

Lemma insert_by_key_sorted x l :
  StronglySorted key_le l -> StronglySorted key_le (insert_by_key x l).
Proof.
  induction l as [|a l IH]; simpl; intros Hs.
  - repeat constructor.
  - apply StronglySorted_cons in Hs as [Hall Hs].
    destruct (x.1 <=? a.1)%Z eqn:E.
    + apply Z.leb_le in E. apply StronglySorted_cons. split.
      * constructor; [exact E|]. eapply Forall_impl; [exact Hall|].
        intros b Hb. unfold key_le in *. lia.
      * apply StronglySorted_cons. done.
    + apply Z.leb_gt in E. apply StronglySorted_cons. split; [|auto].
      rewrite insert_by_key_perm. constructor; [|done]. unfold key_le. lia.
Qed.

Lemma sort_by_key_sorted l : StronglySorted key_le (sort_by_key l).
Proof.
  induction l as [|x l IH]; simpl; [constructor|].
  by apply insert_by_key_sorted.
Qed.

(** Inserting passes only elements with a smaller key, so the elements of
    any one key keep their order. *)
Lemma insert_by_key_stable (y : Z) x l :
  filter (fun fr : Z * str => fr.1 = y) (insert_by_key x l)
  = filter (fun fr : Z * str => fr.1 = y) (x :: l).
Proof.
  induction l as [|a l IH]; simpl; [done|].
  destruct (x.1 <=? a.1)%Z eqn:E; [done|]. apply Z.leb_gt in E.
  rewrite (filter_cons _ a (insert_by_key x l)), IH.
  rewrite !filter_cons.
  repeat case_decide; try done; lia.
Qed.

Lemma sort_by_key_stable (y : Z) l :
  filter (fun fr : Z * str => fr.1 = y) (sort_by_key l)
  = filter (fun fr : Z * str => fr.1 = y) l.
Proof.
  induction l as [|x l IH]; simpl; [done|].
  rewrite insert_by_key_stable, !filter_cons, IH. done.
Qed.

(** A list has one stable sorted arrangement only: two lists sorted by key
    that list the elements of every key in the same order are equal. *)
Lemma stable_sort_unique (l1 l2 : list (Z * str)) :
  StronglySorted key_le l1 -> StronglySorted key_le l2 ->
  (forall y, filter (fun fr : Z * str => fr.1 = y) l1
             = filter (fun fr : Z * str => fr.1 = y) l2) ->
  l1 = l2.
Proof.
  revert l2. induction l1 as [|a l1 IH]; intros l2 H1 H2 Heq.
  - destruct l2 as [|b l2]; [done|].
    specialize (Heq b.1). rewrite filter_cons_True in Heq by done. done.
  - destruct l2 as [|b l2].
    { specialize (Heq a.1). rewrite filter_cons_True in Heq by done. done. }
    apply StronglySorted_cons in H1 as [Ha H1].
    apply StronglySorted_cons in H2 as [Hb H2].
    assert (a.1 = b.1) as Hkey.
    { assert (b.1 <= a.1)%Z.
      { pose proof (Heq a.1) as E. rewrite filter_cons_True in E by done.
        assert (a ∈ filter (fun fr : Z * str => fr.1 = a.1) (b :: l2)) as Hin
          by (rewrite <- E; set_solver).
        apply list_elem_of_filter in Hin as [_ [->|Hin]%elem_of_cons]; [lia|].
        rewrite Forall_forall in Hb. apply Hb in Hin. exact Hin. }
      assert (a.1 <= b.1)%Z.
      { pose proof (Heq b.1) as E. rewrite (filter_cons_True _ b) in E by done.
        assert (b ∈ filter (fun fr : Z * str => fr.1 = b.1) (a :: l1)) as Hin
          by (rewrite E; set_solver).
        apply list_elem_of_filter in Hin as [_ [->|Hin]%elem_of_cons]; [lia|].
        rewrite Forall_forall in Ha. apply Ha in Hin. exact Hin. }
      lia. }
    assert (a = b) as ->.
    { specialize (Heq a.1). rewrite !filter_cons_True in Heq by done.
      congruence. }
    f_equal. apply IH; [done..|].
    intros y. specialize (Heq y). rewrite !filter_cons in Heq.
    case_decide; congruence.
Qed.

(** ** OCRClient: the results of [call_ocr_api] *)

(** The loop over the fragments appends one pair per fragment, in the
    order of detection, when no box is malformed. *)
Lemma for_each_add_fragment items frs acc :
  Forall2 (fun item (fr : Z * str) =>
             y_pos_of item = Returned fr.1
             /\ fr.2 = PyStr.strip (default [] (item_text item))) items frs ->
  for_each add_fragment items acc = Returned (acc ++ frs).
Proof.
  intros H. revert acc. induction H as [|item fr items frs [Hy Ht] _ IH];
    intros acc; simpl.
  - by rewrite app_nil_r.
  - assert (add_fragment acc item = Returned (acc ++ [fr])) as ->.
    { unfold add_fragment. rewrite Hy. simpl. rewrite <- Ht. by destruct fr. }
    simpl. rewrite IH. by rewrite <- app_assoc.
Qed.

(** C5: in lines mode, on an answer with code 100 and well-formed boxes,
    [call_ocr_api] returns the texts of the fragments in the stable sorted
    arrangement by the vertical coordinate of the first corner of their
    boxes: ascending, fragments of equal coordinate in detection order
    (and it leaves out the fragments whose trimmed text is empty). *)
Theorem lines_sorted_by_vertical_position
    (service : request -> http_reply) (base64_image : str)
    (status_code : Z) (items : list ocr_item) (frs : list (Z * str)) :
  service {| base64 := base64_image; data_format := py "dict" |}
  = Reply status_code (Dict (Some 100%Z) (Some (DataItems items))) ->
  raise_for_status status_code = false ->
  Forall2 (fun item (fr : Z * str) =>
             y_pos_of item = Returned fr.1
             /\ fr.2 = PyStr.strip (default [] (item_text item))) items frs ->
  exists sorted : list (Z * str),
    sorted ≡ₚ frs
    /\ StronglySorted key_le sorted
    /\ (forall y, filter (fun fr : Z * str => fr.1 = y) sorted
                  = filter (fun fr : Z * str => fr.1 = y) frs)
    /\ call_ocr_api service base64_image false
       = Returned
           (Lines (map snd (List.filter (fun t => PyStr.truthy t.2) sorted))).
Proof.
  intros Hreply Hstatus Hitems. exists (sort_by_key frs).
  split; [apply sort_by_key_perm|].
  split; [apply sort_by_key_sorted|].
  split; [intros y; apply sort_by_key_stable|].
  unfold call_ocr_api, call_ocr_api_try. rewrite Hreply, Hstatus. simpl.
  by rewrite (for_each_add_fragment items frs []).
Qed.

Lemma lines_sorted_by_vertical_position_witness :
  let box y : option (list (list Z)) := Some [[0; y]; [9; y]; [9; y + 5]; [0; y + 5]]%Z in
  let items :=
    [ {| item_text := Some (py " B "); item_box := box 30%Z |};
      {| item_text := Some (py "A"); item_box := box 10%Z |};
      {| item_text := Some (py "C"); item_box := box 30%Z |} ] in
  let frs := [(30%Z, py "B"); (10%Z, py "A"); (30%Z, py "C")] in
  let service := fun _ : request =>
    Reply 200 (Dict (Some 100%Z) (Some (DataItems items))) in
  call_ocr_api service [] false = Returned (Lines [py "A"; py "B"; py "C"])
  /\ exists sorted : list (Z * str),
       sorted ≡ₚ frs
       /\ StronglySorted key_le sorted
       /\ (forall y, filter (fun fr : Z * str => fr.1 = y) sorted
                     = filter (fun fr : Z * str => fr.1 = y) frs)
       /\ call_ocr_api service [] false
          = Returned
              (Lines (map snd (List.filter (fun t => PyStr.truthy t.2) sorted))).
Proof.
  intros box items frs service. split; [reflexivity|].
  apply (lines_sorted_by_vertical_position service [] 200 items frs).
  - reflexivity.
  - reflexivity.
  - repeat constructor.
Defined.

(** C6, as the code has it: when the network call fails, when the HTTP
    status is an error status (400 to 599, the ones [raise_for_status]
    raises for), or when the answer is an object whose code is 101
    ("no text") or anything else than 100, [call_ocr_api] does not raise
    and returns the empty string in text mode, the empty list in lines
    mode. *)
Theorem ocr_failure_gives_empty_result
    (service : request -> http_reply) (base64_image : str) (return_text : bool) :
  let payload :=
    {| base64 := base64_image;
       data_format := if return_text then py "text" else py "dict" |} in
  (exists e, service payload = NoReply e)
  \/ (exists status_code body,
        service payload = Reply status_code body
        /\ (400 <= status_code < 600)%Z)
  \/ (exists status_code code data,
        service payload = Reply status_code (Dict code data)
        /\ code <> Some 100%Z) ->
  call_ocr_api service base64_image return_text
  = Returned (if return_text then Text [] else Lines []).
Proof.
  intros payload H. unfold call_ocr_api, call_ocr_api_try. fold payload.
  destruct H as [[e ->]|[(status_code & body & -> & Hs)|(status_code & code & data & -> & Hc)]].
  - reflexivity.
  - unfold raise_for_status.
    destruct (Z.leb_spec 400 status_code); [|lia].
    destruct (Z.ltb_spec status_code 600); [|lia]. reflexivity.
  - destruct (raise_for_status status_code); [reflexivity|].
    assert (code_is code 100 = false) as ->.
    { destruct code as [c|]; simpl; [|done]. apply Z.eqb_neq. congruence. }
    by destruct (code_is code 101).
Qed.

Lemma ocr_failure_gives_empty_result_witness :
  let no_text := fun _ : request => Reply 200 (Dict (Some 101%Z) (Some (DataText (py "No text")))) in
  let refused := fun _ : request => NoReply ConnectionError in
  let failing := fun _ : request => Reply 500 NotJson in
  call_ocr_api no_text [] false = Returned (Lines [])
  /\ call_ocr_api refused [] true = Returned (Text [])
  /\ call_ocr_api failing [] false = Returned (Lines []).
Proof.
  intros no_text refused failing. split; [|split].
  - apply (ocr_failure_gives_empty_result no_text [] false).
    right; right. do 3 eexists. split; [reflexivity | discriminate].
  - apply (ocr_failure_gives_empty_result refused [] true).
    left. by eexists.
  - apply (ocr_failure_gives_empty_result failing [] false).
    right; left. do 2 eexists. split; [reflexivity | lia].
Defined.

(** C6, as stated, fails: a status outside 200-299 that is no error status
    lets the answer through; on status 300 with a code-100 body the text
    mode returns the text, and the lines mode raises on a [null] data. *)
Lemma non_2xx_status_not_always_empty :
  let service := fun _ : request =>
    Reply 300 (Dict (Some 100%Z) (Some (DataText (py "ZED 0099-A")))) in
  let service' := fun _ : request => Reply 300 (Dict (Some 100%Z) (Some DataNull)) in
  ~ (200 <= 300 < 300)%Z
  /\ call_ocr_api service [] true = Returned (Text (py "ZED 0099-A"))
  /\ call_ocr_api service [] true <> Returned (empty_result true)
  /\ call_ocr_api service' [] false = Raised TypeError.
Proof.
  intros service service'. split; [lia|]. split; [reflexivity|].
  split; [discriminate | reflexivity].
Qed.

(** ** RecordStore: compaction *)

(** What the loop of [deduplicate_csv] keeps: rows of at least 6 fields,
    in the order of the file, and all the rows only if all have 6 fields. *)
Lemma dedup_rows_kept data seen acc :
  exists seen' kept,
    fold_left dedup_row data (seen, acc) = (seen', acc ++ kept)
    /\ Forall (fun row => 6 <= length row)%nat kept
    /\ (length kept <= length data)%nat
    /\ (length kept = length data -> kept = data).
Proof.
  revert seen acc. induction data as [|row data IH]; intros seen acc;
    cbn [fold_left length].
  - exists seen, []. rewrite app_nil_r. repeat split; auto.
  - unfold dedup_row at 2.
    destruct (6 <=? length row)%nat eqn:L; [case_bool_decide|].
    + destruct (IH seen acc) as (seen' & kept & -> & Hl & Hn & He).
      exists seen', kept. repeat split; auto; lia.
    + apply Nat.leb_le in L.
      destruct (IH ({[take 6 row]} ∪ seen) (acc ++ [row]))
        as (seen' & kept & -> & Hl & Hn & He).
      exists seen', (row :: kept). rewrite <- app_assoc. simpl.
      repeat split; auto; [lia|]. intros E. f_equal. apply He. lia.
    + destruct (IH seen acc) as (seen' & kept & -> & Hl & Hn & He).
      exists seen', kept. repeat split; auto; lia.
Qed.

(** The file [deduplicate_csv] leaves behind. *)
Lemma deduplicate_csv_file (content : csv_table) :
  (deduplicate_csv (Some content)).1
  = match read_rows content with
    | [] | [_] => Some content
    | row0 :: data =>
        let unique_rows := (fold_left dedup_row data (∅, [row0])).2 in
        if (length (row0 :: data) - length unique_rows =? 0)%nat
        then Some content
        else Some unique_rows
    end.
Proof.
  unfold deduplicate_csv.
  destruct (read_rows content) as [|row0 [|row1 data]]; [reflexivity..|].
  destruct (fold_left dedup_row (row1 :: data) (∅, [row0])) as [seen unique_rows].
  cbv zeta. cbn [snd].
  by destruct (length (row0 :: row1 :: data) - length unique_rows =? 0)%nat.
Qed.

(** C9: a data row of fewer than 6 fields changes neither the rows kept nor
    the set of keys seen; after [deduplicate_csv] every data row of the
    table, as the function reads it, has at least 6 fields; and a rewritten
    table is the first row read followed by rows of at least 6 fields. *)
Theorem compact_drops_short_rows :
  (forall st row, (length row < 6)%nat -> dedup_row st row = st)
  /\ (forall content : csv_table,
        exists content',
          (deduplicate_csv (Some content)).1 = Some content'
          /\ Forall (fun row => 6 <= length row)%nat (data_rows content')
          /\ (content' = content
              \/ exists row0 kept,
                   head (read_rows content) = Some row0
                   /\ content' = row0 :: kept
                   /\ Forall (fun row => 6 <= length row)%nat kept)).
Proof.
  split.
  { intros [seen unique_rows] row Hlen. unfold dedup_row.
    destruct (Nat.leb_spec 6 (length row)); [lia | reflexivity]. }
  intros content. rewrite deduplicate_csv_file.
  destruct (read_rows content) as [|row0 [|row1 data]] eqn:Hread.
  - exists content. unfold data_rows. rewrite Hread. simpl. auto.
  - exists content. unfold data_rows. rewrite Hread. simpl. auto.
  - destruct (dedup_rows_kept (row1 :: data) ∅ [row0])
      as (seen' & kept & -> & Hl & Hn & He).
    cbv zeta. cbn [snd app].
    destruct (Nat.eqb_spec
                (length (row0 :: row1 :: data) - length (row0 :: kept)) 0)
      as [E|E].
    + exists content. split; [done|]. split; [|by left].
      unfold data_rows. rewrite Hread. cbn [tail].
      rewrite <- He; [done|]. cbn [length] in *. lia.
    + exists (row0 :: kept). split; [done|]. split.
      * unfold data_rows, read_rows. case_bool_decide; simpl; [done|].
        destruct Hl; simpl; [constructor | done].
      * right. exists row0, kept. auto.
Qed.

Lemma compact_drops_short_rows_witness :
  let r1 := [py "M"; py "C"; py "E"; py "ZENITH"; py "ZED"; py "99A"; py "a.png"] in
  let short := [py "a"; py "b"] in
  let content := [header_row; r1; short; r1] in
  dedup_row (∅, [header_row]) short = (∅, [header_row])
  /\ (deduplicate_csv (Some content)).1 = Some [header_row; r1]
  /\ Forall (fun row => 6 <= length row)%nat (data_rows [header_row; r1]).
Proof.
  intros r1 short content.
  destruct compact_drops_short_rows as [Hshort Hall].
  split; [apply Hshort; simpl; lia|].
  destruct (Hall content) as (content' & Hfile & Hlong & _).
  assert ((deduplicate_csv (Some content)).1 = Some [header_row; r1]) as E
    by (vm_compute; reflexivity).
  rewrite E in Hfile. injection Hfile as <-. split; [reflexivity | exact Hlong].
Defined.

(** ** RecordStore: appending and compacting *)

Lemma save_to_csv_new records :
  save_to_csv records None = Some (header_row :: map row_of records).
Proof. reflexivity. Qed.

Lemma save_to_csv_existing records content :
  save_to_csv records (Some content) = Some (content ++ map row_of records).
Proof. reflexivity. Qed.

Lemma row_of_length r : length (row_of r) = 7%nat.
Proof. by destruct r as [[[[[[a b] c] d] e] f] g]. Qed.

Lemma row_of_key_inj r1 r2 :
  take 6 (row_of r1) = take 6 (row_of r2) -> key_of r1 = key_of r2.
Proof.
  destruct r1 as [[[[[[a1 b1] c1] d1] e1] f1] g1].
  destruct r2 as [[[[[[a2 b2] c2] d2] e2] f2] g2].
  simpl. congruence.
Qed.

(** Rows whose keys are new and pairwise distinct are all kept. *)
Lemma dedup_rows_fresh records seen acc :
  NoDup (map key_of records) ->
  (forall r, r ∈ records -> take 6 (row_of r) ∉ seen) ->
  exists seen',
    fold_left dedup_row (map row_of records) (seen, acc)
    = (seen', acc ++ map row_of records)
    /\ (forall r, r ∈ records -> take 6 (row_of r) ∈ seen')
    /\ (forall k, k ∈ seen -> k ∈ seen').
Proof.
  revert seen acc.
  induction records as [|r records IH]; intros seen acc Hnd Hfresh;
    cbn [map fold_left].
  - exists seen. rewrite app_nil_r. split; [done|]. split; [|done].
    by intros ? ?%elem_of_nil.
  - cbn [map] in Hnd. apply NoDup_cons in Hnd as [Hr Hnd].
    unfold dedup_row at 2. rewrite row_of_length. cbn [Nat.leb].
    rewrite bool_decide_eq_false_2 by (apply Hfresh; set_solver).
    destruct (IH ({[take 6 (row_of r)]} ∪ seen) (acc ++ [row_of r]) Hnd)
      as (seen' & -> & Hin & Hmono).
    { intros r' Hr' [Hk|Hk]%elem_of_union.
      - apply elem_of_singleton in Hk. apply row_of_key_inj in Hk.
        apply Hr. rewrite <- Hk. by apply list_elem_of_fmap_2.
      - apply (Hfresh r'); [set_solver | done]. }
    exists seen'. rewrite <- app_assoc. split; [done|]. split.
    + intros r' [->|Hr']%elem_of_cons; [apply Hmono; set_solver | by apply Hin].
    + intros k Hk. apply Hmono. set_solver.
Qed.

(** Rows whose keys have all been seen are all dropped. *)
Lemma dedup_rows_seen records seen acc :
  (forall r, r ∈ records -> take 6 (row_of r) ∈ seen) ->
  fold_left dedup_row (map row_of records) (seen, acc) = (seen, acc).
Proof.
  induction records as [|r records IH]; intros Hseen; cbn [map fold_left].
  - done.
  - unfold dedup_row at 2. rewrite row_of_length. cbn [Nat.leb].
    rewrite bool_decide_eq_true_2 by (apply Hseen; set_solver).
    apply IH. intros r' Hr'. apply Hseen. set_solver.
Qed.

(** C3: starting from no file, appending records with pairwise distinct
    6-field keys, appending them again and compacting leaves the header row
    followed by the records, once each, in their order: the table as it was
    after the first append. *)
Theorem append_twice_then_compact (records : list OutputRecord) :
  NoDup (map key_of records) ->
  let once := save_to_csv records None in
  let twice := save_to_csv records once in
  (deduplicate_csv twice).1 = Some (header_row :: map row_of records)
  /\ (deduplicate_csv twice).1 = once.
Proof.
  intros Hnd once twice.
  enough ((deduplicate_csv twice).1 = Some (header_row :: map row_of records))
    as H by (split; [exact H | by rewrite H]).
  unfold twice, once. rewrite save_to_csv_new, save_to_csv_existing.
  rewrite deduplicate_csv_file.
  change (read_rows ((header_row :: map row_of records) ++ map row_of records))
    with (header_row :: (map row_of records ++ map row_of records)).
  destruct records as [|r records]; [reflexivity|].
  remember (r :: records) as rs eqn:Hrs.
  assert (map row_of rs ++ map row_of rs
          = row_of r :: (map row_of records ++ map row_of rs)) as Hshape
    by (by rewrite Hrs).
  rewrite Hshape. cbv zeta. rewrite <- Hshape.
  rewrite fold_left_app.
  destruct (dedup_rows_fresh rs ∅ [header_row] Hnd) as (seen' & -> & Hin & _).
  { intros ? _ ?%elem_of_empty. done. }
  rewrite dedup_rows_seen by exact Hin.
  cbn [snd app].
  match goal with
  | |- context [(?n =? 0)%nat] => destruct (Nat.eqb_spec n 0) as [E|E]
  end; [|reflexivity].
  cbn [length] in E. rewrite !length_app, !length_map in E.
  rewrite Hrs in E. cbn [length] in E. lia.
Qed.

Lemma append_twice_then_compact_witness :
  let r1 : OutputRecord :=
    (py "M", py "C", py "E", py "ZENITH", py "ZED", py "0099-A", py "a.png") in
  let r2 : OutputRecord :=
    (py "M", py "C", py "E", py "ZENITH", py "ZED", py "99A", py "a.png") in
  NoDup (map key_of [r1; r2])
  /\ (deduplicate_csv (save_to_csv [r1; r2] (save_to_csv [r1; r2] None))).1
     = Some [header_row; row_of r1; row_of r2].
Proof.
  intros r1 r2.
  assert (NoDup (map key_of [r1; r2])) as H.
  { apply (bool_decide_unpack _). vm_compute. exact I. }
  split; [exact H|].
  exact (proj1 (append_twice_then_compact [r1; r2] H)).
Defined.

(** ** PipelineOrchestrator: one image *)

(** The records [process_image] saves and counts are those of
    [assemble_records], and its warnings those of that loop. *)
Lemma process_image_try_assembles
    regions brand_mapping service image image_name file r :
  process_image_try regions brand_mapping service image image_name file
  = Returned r ->
  exists main_brand_code convert_code english_name part_number_pairs,
    let built :=
      assemble_records main_brand_code convert_code english_name
        brand_mapping image_name part_number_pairs in
    success r = true
    /\ records_count r = length (new_records built)
    /\ warnings r = logged built
    /\ output_csv r = if bool_decide (new_records built <> [])
                      then save_to_csv (new_records built) file
                      else file.
Proof.
  unfold process_image_try.
  destruct (for_each _ regions _) as [st|e]; simpl; [|discriminate].
  intros [= <-]. do 4 eexists. simpl. done.
Qed.

(** The end-to-end example of the specification: brand code list ZED, text
    "ZED 0099-A", mapping ZED to ZENITH. *)
Example process_image_zed :
  let regions := [(py "品牌编码", (0, 0, 10, 10)%Z);
                  (py "品牌编码及件号", (0, 10, 10, 20)%Z)] in
  let service := fun req : request =>
    if bool_decide (data_format req = py "text")
    then Reply 200 (Dict (Some 100%Z) (Some (DataText (py "ZED 0099-A"))))
    else Reply 200 (Dict (Some 100%Z) (Some (DataItems
           [{| item_text := Some (py "ZED");
               item_box := Some [[1; 2]; [5; 2]; [5; 8]; [1; 8]]%Z |}]))) in
  let r := process_image regions {[ py "ZED" := py "ZENITH" ]} service
             (fun _ => []) (py "a.png") None in
  success r = true
  /\ records_count r = 4%nat
  /\ output_csv r
     = Some [header_row;
             [[]; []; []; py "ZENITH"; py "ZED"; py "0099-A"; py "a.png"];
             [[]; []; []; py "ZENITH"; py "ZED"; py "99-A"; py "a.png"];
             [[]; []; []; py "ZENITH"; py "ZED"; py "0099A"; py "a.png"];
             [[]; []; []; py "ZENITH"; py "ZED"; py "99A"; py "a.png"]].
Proof. vm_compute. done. Qed.

(* ================================================================= *)
(** * Further properties of the code *)

(** ** Strings: trimming *)

Lemma lstrip_idemp s : PyStr.lstrip (PyStr.lstrip s) = PyStr.lstrip s.
Proof.
  induction s as [|c s IH]; simpl; [done|].
  destruct (PyStr.isspace c) eqn:E; [done|]. simpl. by rewrite E.
Qed.

Lemma rstrip_idemp s : PyStr.rstrip (PyStr.rstrip s) = PyStr.rstrip s.
Proof. unfold PyStr.rstrip. by rewrite rev_involutive, lstrip_idemp. Qed.

(** [rstrip] removes a run of spaces at the end. *)
Lemma rstrip_spec s :
  exists sp, s = PyStr.rstrip s ++ sp
             /\ Forall (fun c => PyStr.isspace c = true) sp.
Proof.
  destruct (lstrip_spec (rev s)) as (sp & E & H).
  exists (rev sp). split.
  - unfold PyStr.rstrip. rewrite <- rev_app_distr, <- E. by rewrite rev_involutive.
  - by apply Forall_rev.
Qed.

Lemma lstrip_head_fixed s t :
  PyStr.lstrip (s ++ t) = s ++ t -> PyStr.lstrip s = s.
Proof.
  destruct s as [|c s]; simpl; [done|].
  destruct (PyStr.isspace c) eqn:E; [|done].
  intros H. exfalso.
  destruct (lstrip_spec (s ++ t)) as (sp & Hs & _).
  apply (f_equal length) in Hs. rewrite H in Hs.
  rewrite (length_app sp) in Hs. simpl in Hs. lia.
Qed.

Lemma lstrip_rstrip s :
  PyStr.lstrip s = s -> PyStr.lstrip (PyStr.rstrip s) = PyStr.rstrip s.
Proof.
  intros H. destruct (rstrip_spec s) as (sp & E & _).
  rewrite E in H at 1 2. by apply lstrip_head_fixed in H.
Qed.

Lemma strip_idemp s : PyStr.strip (PyStr.strip s) = PyStr.strip s.
Proof.
  unfold PyStr.strip.
  rewrite (lstrip_rstrip (PyStr.lstrip s)) by apply lstrip_idemp.
  apply rstrip_idemp.
Qed.

Lemma lstrip_no_space s :
  Forall (fun c => PyStr.isspace c = false) s -> PyStr.lstrip s = s.
Proof. intros [|c s' Hc _]; simpl; [done|]. by rewrite Hc. Qed.

Lemma strip_no_space s :
  Forall (fun c => PyStr.isspace c = false) s -> PyStr.strip s = s.
Proof.
  intros H. unfold PyStr.strip, PyStr.rstrip. rewrite (lstrip_no_space s H).
  rewrite lstrip_no_space by (by apply Forall_rev). apply rev_involutive.
Qed.

Lemma upper_no_lower s :
  Forall (fun c => PyStr.is_lower c = false) s -> PyStr.upper s = s.
Proof.
  induction 1 as [|c s Hc _ IH]; [done|].
  unfold PyStr.upper in *. cbn [map]. rewrite IH.
  unfold PyStr.upper_char. by rewrite Hc.
Qed.

(** ** VariantExpander: what the variants look like *)

Lemma lstrip_char_suffix s c : PyStr.lstrip_char s c `suffix_of` s.
Proof.
  induction s as [|x s IH]; simpl; [done|].
  destruct (Ascii.eqb x c); [|done]. by apply suffix_cons_r.
Qed.

Lemma lstrip_char_sublist s c : PyStr.lstrip_char s c `sublist_of` s.
Proof.
  induction s as [|x s IH]; simpl; [done|].
  destruct (Ascii.eqb x c); [|done]. by apply sublist_cons.
Qed.

Lemma lstrip_char_shorter s c :
  PyStr.startswith s c = true ->
  (length (PyStr.lstrip_char s c) < length s)%nat.
Proof.
  destruct s as [|x s]; simpl; [done|]. intros ->.
  pose proof (suffix_length _ _ (lstrip_char_suffix s c)). lia.
Qed.

Lemma lstrip_char_head s c : PyStr.startswith (PyStr.lstrip_char s c) c = false.
Proof.
  induction s as [|x s IH]; simpl; [done|].
  destruct (Ascii.eqb x c) eqn:E; [done|]. simpl. exact E.
Qed.

Lemma filter_sublist {A} (f : A -> bool) (l : list A) : List.filter f l `sublist_of` l.
Proof.
  induction l as [|x l IH]; simpl; [done|].
  destruct (f x); [by apply sublist_skip | by apply sublist_cons].
Qed.

Lemma remove_special_sublist P : remove_special P `sublist_of` P.
Proof. rewrite remove_special_filter. apply filter_sublist. Qed.

Lemma remove_special_shorter P :
  has_special P = true -> (length (remove_special P) < length P)%nat.
Proof.
  rewrite has_special_exists, remove_special_filter.
  induction P as [|c P IH]; simpl; [done|].
  destruct (is_special c) eqn:E; simpl.
  - intros _. pose proof (sublist_length _ _ (filter_sublist (fun c => negb (is_special c)) P)).
    lia.
  - intros H. apply IH in H. lia.
Qed.

(** The guard of a rule is the test that its variant is not empty. *)
Lemma guard_shorter v w :
  (length v < length w)%nat ->
  PyStr.truthy v && negb (PyStr.eqb v w) = PyStr.truthy v.
Proof.
  intros H. destruct (PyStr.truthy v); [|done]. simpl.
  unfold PyStr.eqb. rewrite bool_decide_eq_false_2; [done|].
  intros ->. lia.
Qed.

(** [expand] with the guards reduced to what they test. *)
Lemma expand_eq P :
  expand P
  = [P]
    ++ (if PyStr.startswith P zero && PyStr.truthy (PyStr.lstrip_char P zero)
        then [PyStr.lstrip_char P zero] else [])
    ++ (if has_special P && PyStr.truthy (remove_special P)
        then [remove_special P]
             ++ (if PyStr.startswith (remove_special P) zero
                    && PyStr.truthy (PyStr.lstrip_char (remove_special P) zero)
                 then [PyStr.lstrip_char (remove_special P) zero] else [])
        else []).
Proof.
  unfold expand.
  destruct (PyStr.startswith P zero) eqn:H0; simpl.
  - rewrite (guard_shorter _ _ (lstrip_char_shorter P zero H0)).
    destruct (has_special P) eqn:Hs; simpl.
    + rewrite (guard_shorter _ _ (remove_special_shorter P Hs)).
      destruct (PyStr.truthy (remove_special P)); simpl.
      * destruct (PyStr.startswith (remove_special P) zero) eqn:H1; simpl.
        -- rewrite (guard_shorter _ _ (lstrip_char_shorter _ zero H1)).
           by repeat match goal with
                     | |- context [if ?b then _ else _] => destruct b
                     end.
        -- by destruct (PyStr.truthy (PyStr.lstrip_char P zero)).
      * by destruct (PyStr.truthy (PyStr.lstrip_char P zero)).
    + by destruct (PyStr.truthy (PyStr.lstrip_char P zero)).
  - destruct (has_special P) eqn:Hs; simpl; [|done].
    rewrite (guard_shorter _ _ (remove_special_shorter P Hs)).
    destruct (PyStr.truthy (remove_special P)); simpl; [|done].
    destruct (PyStr.startswith (remove_special P) zero) eqn:H1; simpl; [|done].
    rewrite (guard_shorter _ _ (lstrip_char_shorter _ zero H1)).
    by destruct (PyStr.truthy (PyStr.lstrip_char (remove_special P) zero)).
Qed.

Lemma truthy_false s : PyStr.truthy s = false <-> s = [].
Proof. by destruct s. Qed.

Lemma truthy_true s : PyStr.truthy s = true <-> s <> [].
Proof. by destruct s. Qed.

(** A part number is its own only variant exactly when it has no leading
    zero to strip (it does not start with 0, or is made of zeros only) and
    no punctuation to remove (it has none, or nothing else). *)
Theorem expand_alone_iff (P : str) :
  expand P = [P]
  <-> (PyStr.startswith P zero = false \/ PyStr.lstrip_char P zero = [])
      /\ (has_special P = false \/ remove_special P = []).
Proof.
  rewrite expand_eq, <- !truthy_false.
  destruct (PyStr.startswith P zero), (PyStr.truthy (PyStr.lstrip_char P zero)),
    (has_special P), (PyStr.truthy (remove_special P)); simpl;
    (split; [intros E; try discriminate E; auto
            | intros [[?|?] [?|?]]; done]).
Qed.

(** Every variant after the first is not empty, strictly shorter than the
    part number, and made of characters of the part number in their
    order. *)
Theorem expand_variants_shorter (P v : str) :
  v ∈ tail (expand P) ->
  v <> [] /\ (length v < length P)%nat /\ v `sublist_of` P.
Proof.
  rewrite expand_eq. cbn [app tail].
  pose proof (lstrip_char_sublist P zero) as S1.
  pose proof (remove_special_sublist P) as S2.
  assert (PyStr.lstrip_char (remove_special P) zero `sublist_of` P) as S3.
  { etrans; [apply lstrip_char_sublist | exact S2]. }
  destruct (PyStr.startswith P zero) eqn:H0,
    (PyStr.truthy (PyStr.lstrip_char P zero)) eqn:T0,
    (has_special P) eqn:Hs, (PyStr.truthy (remove_special P)) eqn:T1;
    cbn [andb app];
    try (destruct (PyStr.startswith (remove_special P) zero) eqn:H1,
           (PyStr.truthy (PyStr.lstrip_char (remove_special P) zero)) eqn:T2;
         cbn [andb app]);
    rewrite ?elem_of_cons, ?elem_of_nil; intros Hv;
    repeat match goal with
           | H : _ \/ _ |- _ => destruct H as [->|H]
           | H : False |- _ => destruct H
           end;
    repeat match goal with
           | H : PyStr.truthy _ = true |- _ => apply truthy_true in H
           end;
    (split; [done|]); (split; [|done]);
    try (by apply lstrip_char_shorter);
    try (by apply remove_special_shorter);
    try (pose proof (lstrip_char_shorter _ zero H1);
         pose proof (remove_special_shorter P Hs); lia).
Qed.

Lemma expand_variants_shorter_witness :
  py "AB12" ∈ tail (expand (py "0AB-12"))
  /\ py "AB12" <> []
  /\ (length (py "AB12") < length (py "0AB-12"))%nat
  /\ py "AB12" `sublist_of` py "0AB-12".
Proof.
  assert (py "AB12" ∈ tail (expand (py "0AB-12"))) as H.
  { apply list_elem_of_In. vm_compute. tauto. }
  split; [exact H|]. exact (expand_variants_shorter _ _ H).
Defined.

Lemma remove_special_zero s :
  PyStr.startswith s zero = true -> remove_special s <> [].
Proof.
  destruct s as [|c s]; simpl; [done|]. intros E%Ascii.eqb_eq. subst c.
  by rewrite remove_special_filter.
Qed.

Lemma expand_stable v :
  PyStr.startswith v zero && PyStr.truthy (PyStr.lstrip_char v zero) = false ->
  has_special v && PyStr.truthy (remove_special v) = false ->
  expand v = [v].
Proof. intros H1 H2. rewrite expand_eq, H1, H2. done. Qed.

(** The last variant has no variant but itself: expanding it again adds
    nothing. *)
Theorem expand_last_stable (P v : str) :
  last (expand P) = Some v -> expand v = [v].
Proof.
  rewrite expand_eq.
  pose proof (has_special_remove_special P) as Hclean.
  pose proof (has_special_lstrip_zero P) as Hstrip.
  pose proof (has_special_lstrip_zero (remove_special P)) as Hboth.
  rewrite Hclean in Hboth.
  pose proof (lstrip_char_head P zero) as L1.
  pose proof (lstrip_char_head (remove_special P) zero) as L2.
  assert (PyStr.startswith P zero = true ->
          PyStr.truthy (remove_special P) = true) as Hzero.
  { intros H. by apply truthy_true, remove_special_zero. }
  destruct (PyStr.startswith P zero) eqn:H0,
    (PyStr.truthy (PyStr.lstrip_char P zero)) eqn:T0,
    (has_special P) eqn:Hs, (PyStr.truthy (remove_special P)) eqn:T1;
    try (specialize (Hzero eq_refl); discriminate Hzero);
    cbn [andb app];
    try (destruct (PyStr.startswith (remove_special P) zero) eqn:H1,
           (PyStr.truthy (PyStr.lstrip_char (remove_special P) zero)) eqn:T2;
         cbn [andb app]);
    cbn [last]; intros [= <-]; apply expand_stable;
    rewrite ?L1, ?L2, ?H0, ?H1, ?T0, ?T1, ?T2, ?Hs, ?Hclean, ?Hboth, ?Hstrip;
    done.
Qed.

Lemma expand_last_stable_witness :
  last (expand (py "0AB-12")) = Some (py "AB12")
  /\ expand (py "AB12") = [py "AB12"].
Proof.
  assert (last (expand (py "0AB-12")) = Some (py "AB12")) as H by reflexivity.
  split; [exact H|]. exact (expand_last_stable _ _ H).
Defined.

Lemma expand_alone_iff_witness :
  (PyStr.startswith (py "AB12") zero = false
   \/ PyStr.lstrip_char (py "AB12") zero = [])
  /\ (has_special (py "AB12") = false \/ remove_special (py "AB12") = [])
  /\ expand (py "AB12") = [py "AB12"].
Proof.
  assert ((PyStr.startswith (py "AB12") zero = false
           \/ PyStr.lstrip_char (py "AB12") zero = [])
          /\ (has_special (py "AB12") = false \/ remove_special (py "AB12") = []))
    as H by (split; left; reflexivity).
  destruct H as [H1 H2]. split; [exact H1|]. split; [exact H2|].
  exact (proj2 (expand_alone_iff (py "AB12")) (conj H1 H2)).
Defined.

(** ** PartNumberExtractor: what the pairs look like *)

(** A loop that only appends adds, for some element of the list it runs
    over, elements related to it by [Q]. *)
Lemma fold_left_appends_from {A X : Type} (f : list A -> X -> list A)
    (Q : X -> A -> Prop) :
  (forall acc x p, p ∈ f acc x -> p ∈ acc \/ Q x p) ->
  forall xs acc p, p ∈ fold_left f xs acc -> p ∈ acc \/ exists x, x ∈ xs /\ Q x p.
Proof.
  intros Hf xs. induction xs as [|x xs IH]; intros acc p Hp; simpl in Hp.
  - by left.
  - apply IH in Hp as [Hp|(y & Hy & HQ)].
    + apply Hf in Hp as [Hp|Hp]; [by left|]. right. exists x. split; [left|done].
    + right. exists y. split; [by right|done].
Qed.

(** Every group [findall] returns is a letter or digit followed by at
    least one character of the class. *)
Lemma findall_from_groups brand_code prev skip s g :
  g ∈ Re.findall_from brand_code prev skip s ->
  exists c run, g = c :: run /\ Re.part_start c = true /\ run <> []
                /\ Forall (fun x => Re.part_char x = true) run.
Proof.
  revert prev skip. induction s as [|c s IH]; intros prev skip; simpl.
  - by intros ?%elem_of_nil.
  - destruct skip as [|k]; [|apply IH].
    destruct (Re.match_here brand_code prev (c :: s)) as [[group n]|] eqn:Hm;
      [|apply IH].
    intros [->|Hg]%elem_of_cons; [|by apply IH in Hg].
    apply match_here_sound in Hm as (lit & sp & rest & Hm & _).
    destruct Hm as (_ & _ & _ & _ & c' & run & -> & ? & ? & ?).
    by exists c', run.
Qed.

Lemma part_start_part_char c : Re.part_start c = true -> Re.part_char c = true.
Proof. unfold Re.part_start, Re.part_char. by intros ->. Qed.

Lemma part_char_not_space c : Re.part_char c = true -> PyStr.isspace c = false.
Proof. destruct c as [[] [] [] [] [] [] [] []]; simpl; done. Qed.

Lemma part_char_upper c :
  Re.part_char c = true ->
  Re.part_char (PyStr.upper_char c) = true
  /\ PyStr.is_lower (PyStr.upper_char c) = false.
Proof. destruct c as [[] [] [] [] [] [] [] []]; simpl; done. Qed.

Lemma part_start_upper c :
  Re.part_start c = true -> Re.part_start (PyStr.upper_char c) = true.
Proof. destruct c as [[] [] [] [] [] [] [] []]; simpl; done. Qed.

(** The part number kept for a group: the group in upper case. *)
Lemma group_part_number g :
  (exists c run, g = c :: run /\ Re.part_start c = true /\ run <> []
                 /\ Forall (fun x => Re.part_char x = true) run) ->
  exists c rest,
    PyStr.upper (PyStr.strip g) = c :: rest
    /\ Re.part_start c = true
    /\ Forall (fun x => Re.part_char x = true /\ PyStr.is_lower x = false)
         (c :: rest).
Proof.
  intros (c & run & -> & Hc & _ & Hrun).
  assert (Forall (fun x => Re.part_char x = true) (c :: run)) as Hall.
  { constructor; [by apply part_start_part_char | done]. }
  rewrite strip_no_space.
  2:{ eapply Forall_impl; [exact Hall|]. apply part_char_not_space. }
  exists (PyStr.upper_char c), (PyStr.upper run). split; [done|].
  split; [by apply part_start_upper|].
  change (PyStr.upper_char c :: PyStr.upper run) with (PyStr.upper (c :: run)).
  unfold PyStr.upper. apply Forall_fmap.
  eapply Forall_impl; [exact Hall|]. intros x Hx. by apply part_char_upper.
Qed.

Lemma keep_match_elem_from U brand_code results group p :
  p ∈ keep_match U brand_code results group ->
  p ∈ results \/ p = (brand_code, PyStr.upper (PyStr.strip group)).
Proof.
  unfold keep_match.
  destruct (PyStr.truthy _ && negb _); [|by left].
  destruct (4 <=? _)%nat; [|by left].
  intros [Hp|Hp]%elem_of_app; [by left|]. right.
  by apply list_elem_of_singleton in Hp.
Qed.

(** The brand code of a pair is one of the unique brand codes, and its
    part number the upper-cased form of a group of the pattern. *)
Lemma extract_part_numbers_shape B T p :
  p ∈ extract_part_numbers B T ->
  p.1 ∈ unique_brand_codes_of B
  /\ exists c rest,
       p.2 = c :: rest /\ Re.part_start c = true
       /\ Forall (fun x => Re.part_char x = true /\ PyStr.is_lower x = false) p.2.
Proof.
  unfold extract_part_numbers.
  destruct (negb _ || negb _); [by intros ?%elem_of_nil|].
  intros Hp.
  apply (fold_left_appends_from _
           (fun bc p => p.1 = bc
              /\ exists c rest, p.2 = c :: rest /\ Re.part_start c = true
                 /\ Forall (fun x => Re.part_char x = true
                                     /\ PyStr.is_lower x = false) p.2)) in Hp.
  - destruct Hp as [Hp|(bc & Hbc & Hfst & Hsnd)]; [by apply elem_of_nil in Hp|].
    by rewrite Hfst.
  - intros acc bc q Hq. unfold scan_brand_code in Hq.
    apply (fold_left_appends_from _
             (fun g q => q = (bc, PyStr.upper (PyStr.strip g)))) in Hq.
    2:{ intros acc' g q'. apply keep_match_elem_from. }
    destruct Hq as [Hq|(g & Hg & ->)]; [by left|]. right. simpl.
    split; [done|].
    apply findall_from_groups, group_part_number in Hg
      as (c & rest & E & Hc & Hall).
    exists c, rest. by rewrite E.
Qed.



(** ** PartNumberExtractor: the brand codes *)

Lemma normal_code_fixed b :
  PyStr.upper (PyStr.strip (PyStr.upper (PyStr.strip b)))
  = PyStr.upper (PyStr.strip b).
Proof. by rewrite strip_upper, upper_idemp, strip_idemp. Qed.

Lemma add_brand_code_ok st bc : codes_ok st -> codes_ok (add_brand_code st bc).
Proof.
  destruct st as [u seen]. intros (Hnd & Hseen & Hall). unfold add_brand_code.
  destruct (PyStr.truthy _) eqn:Ht; simpl; [|done].
  case_bool_decide as Hin; simpl; [done|].
  split; [|split]; simpl.
  - apply NoDup_app. split; [done|]. split; [|apply NoDup_singleton].
    intros x Hx ->%list_elem_of_singleton. apply Hin. by apply Hseen.
  - intros y. rewrite elem_of_union, elem_of_singleton, elem_of_app,
      list_elem_of_singleton, Hseen. tauto.
  - apply Forall_app. split; [done|]. constructor; [|constructor].
    split; [by apply truthy_true | apply normal_code_fixed].
Qed.

Lemma add_brand_codes_ok l st :
  codes_ok st -> codes_ok (fold_left add_brand_code l st).
Proof.
  revert st. induction l as [|b l IH]; intros st H; simpl; [done|].
  by apply IH, add_brand_code_ok.
Qed.

Lemma add_brand_codes_fixed l u seen :
  codes_ok (u, seen) ->
  NoDup l -> (forall x, x ∈ l -> x ∉ u) ->
  Forall (fun x => x <> [] /\ PyStr.upper (PyStr.strip x) = x) l ->
  (fold_left add_brand_code l (u, seen)).1 = u ++ l.
Proof.
  revert u seen. induction l as [|b l IH]; intros u seen Hok Hnd Hnew Hall.
  - simpl. by rewrite app_nil_r.
  - apply NoDup_cons in Hnd as [Hb Hnd].
    apply Forall_cons in Hall as [[Hne Hfix] Hall].
    assert (add_brand_code (u, seen) b = (u ++ [b], {[b]} ∪ seen)) as E.
    { unfold add_brand_code. rewrite Hfix.
      assert (PyStr.truthy b = true) as -> by (by apply truthy_true).
      rewrite bool_decide_eq_false_2; [done|].
      destruct Hok as (_ & Hseen & _). rewrite Hseen. apply Hnew. by left. }
    cbn [fold_left]. rewrite E, IH, <- app_assoc; [done| |done| |done].
    + rewrite <- E. by apply add_brand_code_ok.
    + intros x Hx [Hu| ->%list_elem_of_singleton]%elem_of_app; [|done].
      apply (Hnew x); [by right | done].
Qed.

Lemma codes_ok_empty : codes_ok ([], ∅).
Proof.
  split; [apply NoDup_nil_2|]. split; [|constructor].
  intros y. split; [by intros ?%elem_of_empty | by intros ?%elem_of_nil].
Qed.

(** Normalising a normalised list of brand codes changes nothing. *)
Lemma unique_brand_codes_idemp B :
  unique_brand_codes_of (unique_brand_codes_of B) = unique_brand_codes_of B.
Proof.
  pose proof (add_brand_codes_ok B _ codes_ok_empty) as (Hnd & _ & Hall).
  unfold unique_brand_codes_of at 1.
  rewrite add_brand_codes_fixed; [done|apply codes_ok_empty|done| |done].
  by intros x _ ?%elem_of_nil.
Qed.

(** The extraction sees the brand codes only through their normal form:
    brand codes in other letter case, with spaces around them, empty or
    repeated give the pairs that the list of unique codes gives. *)
Theorem extract_brand_codes_normal_form (B : list str) (T : str) :
  extract_part_numbers (unique_brand_codes_of B) T = extract_part_numbers B T
  /\ NoDup (unique_brand_codes_of B)
  /\ Forall (fun bc => bc <> [] /\ PyStr.upper bc = bc /\ PyStr.strip bc = bc)
       (unique_brand_codes_of B).
Proof.
  split; [|split].
  - unfold extract_part_numbers. by rewrite unique_brand_codes_idemp.
  - by pose proof (add_brand_codes_ok B _ codes_ok_empty) as (Hnd & _ & _).
  - pose proof (add_brand_codes_ok B _ codes_ok_empty) as (_ & _ & Hall).
    eapply Forall_impl; [exact Hall|]. intros x [Hne Hfix]. split; [done|].
    rewrite <- Hfix. by rewrite upper_idemp, <- strip_upper, strip_idemp.
Qed.

(** ** PartNumberExtractor: the text *)

Lemma split_from_snoc_space cur s c :
  PyStr.isspace c = true ->
  PyStr.split_from cur (s ++ [c]) = PyStr.split_from cur s.
Proof.
  intros Hc. revert cur. induction s as [|x s IH]; intros cur; simpl.
  - rewrite Hc. by destruct cur.
  - destruct (PyStr.isspace x); [|apply IH].
    destruct cur; by rewrite IH.
Qed.

Lemma split_from_app_spaces cur s sp :
  Forall (fun c => PyStr.isspace c = true) sp ->
  PyStr.split_from cur (s ++ sp) = PyStr.split_from cur s.
Proof.
  intros H. revert s. induction H as [|c sp Hc _ IH]; intros s.
  - by rewrite app_nil_r.
  - rewrite (cons_middle c s sp), app_assoc, IH. by apply split_from_snoc_space.
Qed.

Lemma split_lstrip s : PyStr.split (PyStr.lstrip s) = PyStr.split s.
Proof.
  unfold PyStr.split. induction s as [|c s IH]; simpl; [done|].
  destruct (PyStr.isspace c) eqn:E; [done|]. simpl. by rewrite E.
Qed.

Lemma split_strip s : PyStr.split (PyStr.strip s) = PyStr.split s.
Proof.
  unfold PyStr.strip. rewrite <- (split_lstrip s).
  destruct (rstrip_spec (PyStr.lstrip s)) as (sp & E & Hsp).
  rewrite E at 2. unfold PyStr.split. by rewrite split_from_app_spaces.
Qed.

Lemma scan_empty_text U l acc :
  fold_left (scan_brand_code U []) l acc = acc.
Proof. revert acc. induction l as [|bc l IH]; intros acc; simpl; [done|]. apply IH. Qed.

(** The extraction in terms of the words of the text. *)
Lemma extract_part_numbers_words B T :
  extract_part_numbers B T
  = fold_left
      (scan_brand_code (unique_brand_codes_of B)
         (PyStr.join (py " ") (PyStr.split T)))
      (unique_brand_codes_of B) [].
Proof.
  unfold extract_part_numbers. rewrite split_strip.
  case_bool_decide as Hu; simpl.
  - destruct T as [|c T]; simpl; [|done]. by rewrite scan_empty_text.
  - by rewrite Hu.
Qed.

(** The extraction sees the text only through its words: two texts with
    the same words, however the white space between and around them, give
    the same pairs. *)
Theorem extract_white_space_irrelevant (B : list str) (T1 T2 : str) :
  PyStr.split T1 = PyStr.split T2 ->
  extract_part_numbers B T1 = extract_part_numbers B T2.
Proof. intros H. by rewrite !extract_part_numbers_words, H. Qed.

Lemma extract_white_space_irrelevant_witness :
  PyStr.split (py "ACME  AB1234") = PyStr.split ("010"%char :: py "ACME AB1234 ")
  /\ extract_part_numbers [py "ACME"] (py "ACME  AB1234")
     = extract_part_numbers [py "ACME"] ("010"%char :: py "ACME AB1234 ").
Proof.
  assert (PyStr.split (py "ACME  AB1234")
          = PyStr.split ("010"%char :: py "ACME AB1234 ")) as H
    by reflexivity.
  split; [exact H|]. exact (extract_white_space_irrelevant _ _ _ H).
Defined.















(** ** OCRClient: what [call_ocr_api] returns and raises *)

Lemma add_fragment_cases acc item :
  add_fragment acc item
  = match y_pos_of item with
    | Returned y =>
        Returned (acc ++ [(y, PyStr.strip (default [] (item_text item)))])
    | Raised e => Raised e
    end.
Proof. unfold add_fragment. by destruct (y_pos_of item). Qed.

Lemma for_each_add_fragment_trimmed items acc frs :
  Forall (fun fr : Z * str => PyStr.strip fr.2 = fr.2) acc ->
  for_each add_fragment items acc = Returned frs ->
  Forall (fun fr : Z * str => PyStr.strip fr.2 = fr.2) frs.
Proof.
  revert acc. induction items as [|item items IH]; intros acc Hacc; simpl.
  - by intros [= <-].
  - rewrite add_fragment_cases. destruct (y_pos_of item) as [y|e]; simpl; [|done].
    apply IH. apply Forall_app. split; [done|].
    constructor; [|constructor]. apply strip_idemp.
Qed.

Lemma fragments_of_trimmed data frs :
  fragments_of data = Returned frs ->
  Forall (fun fr : Z * str => PyStr.strip fr.2 = fr.2) frs.
Proof.
  destruct data as [[|c s]|items|]; simpl; try done.
  - by intros [= <-].
  - by apply for_each_add_fragment_trimmed.
Qed.

(** The result has the type of the mode asked for, a string in text mode
    and a list in lines mode, and every line of the list is trimmed and
    not empty. *)
Theorem call_ocr_api_result_shape
    (service : request -> http_reply) (base64_image : str)
    (return_text : bool) (r : ocr_result) :
  call_ocr_api service base64_image return_text = Returned r ->
  if return_text then exists text, r = Text text
  else exists lines,
         r = Lines lines
         /\ Forall (fun line => line <> [] /\ PyStr.strip line = line) lines.
Proof.
  unfold call_ocr_api, call_ocr_api_try.
  destruct (service _) as [e|status_code body]; simpl.
  { intros [= <-]. destruct return_text; simpl; eauto. }
  destruct (raise_for_status status_code); simpl.
  { intros [= <-]. destruct return_text; simpl; eauto. }
  destruct body as [| |code data]; simpl; [|done|].
  { intros [= <-]. destruct return_text; simpl; eauto. }
  destruct (code_is code 100).
  - destruct return_text; simpl.
    + intros [= <-]. eauto.
    + destruct (fragments_of (default (DataItems []) data)) as [frs|e] eqn:Hfr;
        simpl.
      2:{ destruct e; [|done..]. intros [= <-]. exists []. by split. }
      intros [= <-]. eexists. split; [done|].
      apply fragments_of_trimmed in Hfr.
      rewrite <- (sort_by_key_perm frs) in Hfr.
      induction Hfr as [|[y t] l Ht _ IH]; simpl; [constructor|].
      destruct t as [|c t]; simpl; [exact IH|]. constructor; [|exact IH].
      split; [done | exact Ht].
  - assert (Returned (empty_result return_text)
            = Returned r -> if return_text then exists text, r = Text text
              else exists lines, r = Lines lines
                /\ Forall (fun line => line <> [] /\ PyStr.strip line = line) lines)
      as H.
    { intros [= <-]. destruct return_text; simpl; eauto. }
    by destruct (code_is code 101).
Qed.

Lemma call_ocr_api_result_shape_witness :
  let service := fun _ : request =>
    Reply 200 (Dict (Some 100%Z) (Some (DataItems
      [ {| item_text := Some (py " ZED "); item_box := None |};
        {| item_text := Some (py "  "); item_box := None |} ]))) in
  call_ocr_api service [] false = Returned (Lines [py "ZED"])
  /\ exists lines,
       Lines [py "ZED"] = Lines lines
       /\ Forall (fun line => line <> [] /\ PyStr.strip line = line) lines.
Proof.
  intros service.
  assert (call_ocr_api service [] false = Returned (Lines [py "ZED"])) as H
    by reflexivity.
  split; [exact H|]. exact (call_ocr_api_result_shape service [] false _ H).
Defined.

(** [call_ocr_api] raises only on a response that passes the status check
    and carries JSON that is no object, or, in lines mode, a code-100
    object whose data cannot be read as a list of fragments; it never lets
    a [RequestException] through, and in text mode every JSON object gives
    a result. *)
Theorem call_ocr_api_raises_only
    (service : request -> http_reply) (base64_image : str)
    (return_text : bool) (e : exn) :
  call_ocr_api service base64_image return_text = Raised e ->
  (forall re, e <> RequestException re)
  /\ exists status_code body,
       service {| base64 := base64_image;
                  data_format := if return_text then py "text" else py "dict" |}
       = Reply status_code body
       /\ raise_for_status status_code = false
       /\ ((body = NotDict /\ e = AttributeError)
           \/ (return_text = false
               /\ exists code data,
                    body = Dict code (Some data)
                    /\ code_is code 100 = true
                    /\ fragments_of data = Raised e)).
Proof.
  unfold call_ocr_api, call_ocr_api_try.
  destruct (service _) as [re|status_code body]; simpl; [done|].
  destruct (raise_for_status status_code) eqn:Hs; simpl; [done|].
  destruct body as [| |code data]; simpl; [done| |].
  { intros [= <-]. split; [done|]. exists status_code, NotDict. auto. }
  destruct (code_is code 100) eqn:Hc.
  2:{ by destruct (code_is code 101). }
  destruct return_text; simpl; [done|].
  destruct data as [data|]; simpl.
  - destruct (fragments_of data) as [frs|e'] eqn:Hfr; simpl; [done|].
    destruct e' as [re| | |]; simpl; intros [= <-].
    + split; [done|]. exists status_code, (Dict code (Some data)).
      split; [done|]. split; [done|]. right. split; [done|]. eauto.
    + split; [done|]. exists status_code, (Dict code (Some data)).
      split; [done|]. split; [done|]. right. split; [done|]. eauto.
    + split; [done|]. exists status_code, (Dict code (Some data)).
      split; [done|]. split; [done|]. right. split; [done|]. eauto.
  - done.
Qed.

Lemma call_ocr_api_raises_only_witness :
  let service := fun _ : request =>
    Reply 200 (Dict (Some 100%Z) (Some (DataItems
      [ {| item_text := Some (py "ZED"); item_box := Some [[7%Z]] |} ]))) in
  call_ocr_api service [] false = Raised IndexError
  /\ (forall re, IndexError <> RequestException re).
Proof.
  intros service.
  assert (call_ocr_api service [] false = Raised IndexError) as H by reflexivity.
  split; [exact H|].
  exact (proj1 (call_ocr_api_raises_only service [] false IndexError H)).
Defined.

(** ** BrandMap: the mapping loaded *)

Lemma for_each_partial_inv {A S : Type} (P : S -> Prop)
    (body : S -> A -> outcome S) xs acc :
  (forall acc x acc', x ∈ xs -> P acc -> body acc x = Returned acc' -> P acc') ->
  P acc -> P (for_each_partial body xs acc).1.
Proof.
  revert acc. induction xs as [|x xs IH]; intros acc Hbody Hacc; simpl; [done|].
  destruct (body acc x) as [acc'|e] eqn:E; [|done].
  apply IH.
  - intros a y a' Hy. apply Hbody. by right.
  - eapply Hbody; [by left | done | done].
Qed.

Lemma for_each_partial_app {A S : Type} (body : S -> A -> outcome S) xs ys acc :
  for_each_partial body (xs ++ ys) acc
  = match for_each_partial body xs acc with
    | (acc', None) => for_each_partial body ys acc'
    | (acc', Some e) => (acc', Some e)
    end.
Proof.
  revert acc. induction xs as [|x xs IH]; intros acc; simpl; [done|].
  destruct (body acc x); [apply IH | done].
Qed.

Lemma get_strip_upper_normal row key x :
  get_strip_upper row key = Returned x ->
  PyStr.upper x = x /\ PyStr.strip x = x.
Proof.
  unfold get_strip_upper.
  destruct (row !! key) as [[value|]|]; [|done|]; intros [= <-].
  - by rewrite upper_idemp, <- strip_upper, strip_idemp.
  - done.
Qed.

Lemma add_brand_row_cases mapping row mapping' :
  add_brand_row mapping row = Returned mapping' ->
  exists brand_code universal_brand,
    get_strip_upper row (py "品牌编码") = Returned brand_code
    /\ get_strip_upper row (py "通用品牌") = Returned universal_brand
    /\ mapping' = if PyStr.truthy brand_code
                  then <[brand_code := universal_brand]> mapping
                  else mapping.
Proof.
  unfold add_brand_row, mbind, outcome_bind.
  destruct (get_strip_upper row (py "品牌编码")) as [bc|]; [|intros [=]].
  destruct (get_strip_upper row (py "通用品牌")) as [ub|]; [|intros [=]].
  intros [= <-]. by exists bc, ub.
Qed.

Lemma load_brand_mapping_entries (file : option csv_table) k v :
  load_brand_mapping file !! k = Some v ->
  k <> [] /\ PyStr.upper k = k /\ PyStr.strip k = k
  /\ PyStr.upper v = v /\ PyStr.strip v = v.
Proof.
  destruct file as [content|]; simpl; [|by rewrite lookup_empty].
  revert k v.
  apply (for_each_partial_inv
           (fun m : gmap str str => forall k v, m !! k = Some v ->
              k <> [] /\ PyStr.upper k = k /\ PyStr.strip k = k
              /\ PyStr.upper v = v /\ PyStr.strip v = v)).
  - intros m row m' _ Hm (bc & ub & Hbc & Hub & ->)%add_brand_row_cases.
    destruct (PyStr.truthy bc) eqn:Ht; [|done].
    intros k v. rewrite lookup_insert. case_decide as E; [|apply Hm].
    subst k. intros [= <-].
    apply get_strip_upper_normal in Hbc as [? ?].
    apply get_strip_upper_normal in Hub as [? ?].
    split; [by apply truthy_true | done].
  - intros k v. by rewrite lookup_empty.
Qed.

(** Every brand code of the mapping loaded is non-empty, trimmed and in
    upper case, and every universal brand is trimmed and in upper case;
    a brand code in other case or with spaces around it is not a key. *)
Theorem load_brand_mapping_normal
    (file : option csv_table) (brand_code universal_brand : str) :
  load_brand_mapping file !! brand_code = Some universal_brand ->
  brand_code <> []
  /\ PyStr.upper brand_code = brand_code /\ PyStr.strip brand_code = brand_code
  /\ PyStr.upper universal_brand = universal_brand
  /\ PyStr.strip universal_brand = universal_brand.
Proof.
  intros H. destruct (load_brand_mapping_entries file _ _ H) as (? & ? & ? & ? & ?).
  repeat split; assumption.
Qed.

Lemma load_brand_mapping_normal_witness :
  let file := Some [[py "品牌编码"; py "通用品牌"]; [py " zed"; py "Zenith "]] in
  load_brand_mapping file !! py "ZED" = Some (py "ZENITH")
  /\ py "ZED" <> []
  /\ PyStr.upper (py "ZED") = py "ZED" /\ PyStr.strip (py "ZED") = py "ZED"
  /\ PyStr.upper (py "ZENITH") = py "ZENITH"
  /\ PyStr.strip (py "ZENITH") = py "ZENITH".
Proof.
  intros file.
  assert (load_brand_mapping file !! py "ZED" = Some (py "ZENITH")) as H
    by (vm_compute; reflexivity).
  split; [exact H|]. exact (load_brand_mapping_normal file _ _ H).
Defined.

Lemma dict_of_row_lookup_notin fieldnames row d name :
  name ∉ fieldnames -> dict_of_row fieldnames row d !! name = d !! name.
Proof.
  revert row d. induction fieldnames as [|f fieldnames IH]; intros row d Hn;
    simpl; [done|].
  apply not_elem_of_cons in Hn as [Hne Hn].
  destruct row as [|field row]; rewrite IH by done; by rewrite lookup_insert_ne.
Qed.

(** Without a column named 品牌编码 nothing is loaded, as when the file
    cannot be opened or is empty. *)
Theorem load_brand_mapping_no_code_column
    (fieldnames : list str) (rows : csv_table) :
  py "品牌编码" ∉ fieldnames ->
  load_brand_mapping (Some (fieldnames :: rows)) = ∅
  /\ load_brand_mapping (Some []) = ∅
  /\ load_brand_mapping None = ∅.
Proof.
  intros Hn. split; [|done]. unfold load_brand_mapping, DictReader.
  apply (for_each_partial_inv (fun m : gmap str str => m = ∅)); [|done].
  intros m d m' Hd -> (bc & ub & Hbc & Hub & ->)%add_brand_row_cases.
  apply list_elem_of_fmap in Hd as (row & -> & _).
  unfold get_strip_upper in Hbc.
  rewrite dict_of_row_lookup_notin, lookup_empty in Hbc by done.
  by injection Hbc as <-.
Qed.

Lemma load_brand_mapping_no_code_column_witness :
  (py "品牌编码" ∉ [py "code"; py "通用品牌"])
  /\ load_brand_mapping (Some [[py "code"; py "通用品牌"]; [py "ZED"; py "ZENITH"]])
     = ∅.
Proof.
  assert (py "品牌编码" ∉ [py "code"; py "通用品牌"]) as H.
  { apply (bool_decide_unpack _). vm_compute. exact I. }
  split; [exact H|].
  exact (proj1 (load_brand_mapping_no_code_column _ _ H)).
Defined.

Lemma columns_differ : py "品牌编码" <> py "通用品牌".
Proof. apply (bool_decide_unpack _). vm_compute. exact I. Qed.

Section BrandTable.

(** A table whose first two columns are the brand code and the universal
    brand, the other columns having other names. *)
Variable extra : list str.
Hypothesis code_not_extra : py "品牌编码" ∉ extra.
Hypothesis universal_not_extra : py "通用品牌" ∉ extra.

Local Abbreviation fieldnames := (py "品牌编码" :: py "通用品牌" :: extra).
Local Abbreviation norm := (fun s => PyStr.upper (PyStr.strip s)).

Lemma add_brand_row_long mapping c u rest :
  add_brand_row mapping (dict_of_row fieldnames (c :: u :: rest) ∅)
  = Returned (if PyStr.truthy (norm c) then <[norm c := norm u]> mapping
              else mapping).
Proof.
  unfold add_brand_row, get_strip_upper. cbn [dict_of_row].
  rewrite !dict_of_row_lookup_notin by done.
  rewrite (lookup_insert_ne _ (py "通用品牌") (py "品牌编码"))
    by apply not_eq_sym, columns_differ.
  by rewrite !lookup_insert_eq.
Qed.

Lemma add_brand_row_short mapping x :
  add_brand_row mapping (dict_of_row fieldnames [x] ∅) = Raised AttributeError.
Proof.
  unfold add_brand_row, get_strip_upper. cbn [dict_of_row].
  rewrite !dict_of_row_lookup_notin by done.
  rewrite (lookup_insert_ne _ (py "通用品牌") (py "品牌编码"))
    by apply not_eq_sym, columns_differ.
  by rewrite !lookup_insert_eq.
Qed.

Local Abbreviation dicts rows :=
  (map (fun row => dict_of_row fieldnames row ∅)
     (List.filter (fun row => negb (bool_decide (row = []))) rows)).

(** Rows of no field are skipped and rows of two fields or more are read:
    the loop runs to the end. *)
Lemma load_rows_complete rows mapping :
  Forall (fun row : csv_row => length row <> 1%nat) rows ->
  (for_each_partial add_brand_row (dicts rows) mapping).2 = None.
Proof.
  intros H. revert mapping. induction H as [|row rows Hrow _ IH];
    intros mapping; [done|].
  destruct row as [|c [|u rest]]; [apply IH | done |].
  cbn [List.filter bool_decide negb map for_each_partial].
  rewrite bool_decide_eq_false_2 by done. cbn [negb map for_each_partial].
  rewrite add_brand_row_long. apply IH.
Qed.

(** The last row of a brand code decides its universal brand, and leaves
    the other brand codes as the rows before it set them. *)
Theorem load_brand_mapping_last_wins (rows : csv_table) (c u : str) (rest : csv_row) :
  Forall (fun row : csv_row => length row <> 1%nat) rows ->
  norm c <> [] ->
  let before := load_brand_mapping (Some (fieldnames :: rows)) in
  let after :=
    load_brand_mapping (Some (fieldnames :: rows ++ [c :: u :: rest])) in
  after !! norm c = Some (norm u)
  /\ forall k, k <> norm c -> after !! k = before !! k.
Proof.
  intros Hrows Hc before after. unfold after, before, load_brand_mapping, DictReader.
  rewrite List.filter_app, map_app, for_each_partial_app.
  pose proof (load_rows_complete rows ∅ Hrows) as Hdone.
  destruct (for_each_partial add_brand_row (dicts rows) ∅) as [m o].
  simpl in Hdone. subst o.
  cbn [List.filter bool_decide negb map for_each_partial].
  rewrite bool_decide_eq_false_2 by done. cbn [negb map for_each_partial].
  rewrite add_brand_row_long.
  assert (PyStr.truthy (norm c) = true) as -> by (by apply truthy_true).
  cbn [fst]. split; [apply lookup_insert_eq|].
  intros k Hk. by rewrite lookup_insert_ne.
Qed.

(** A row with one field only, a brand code without universal brand, ends
    the loading: the rows before it are loaded, the rows after it are
    not, whatever they hold. *)
Theorem load_brand_mapping_stops_at_short_row
    (rows1 rows2 : csv_table) (x : str) :
  Forall (fun row : csv_row => length row <> 1%nat) rows1 ->
  load_brand_mapping (Some (fieldnames :: rows1 ++ [x] :: rows2))
  = load_brand_mapping (Some (fieldnames :: rows1)).
Proof.
  intros Hrows. unfold load_brand_mapping, DictReader.
  rewrite List.filter_app, map_app, for_each_partial_app.
  pose proof (load_rows_complete rows1 ∅ Hrows) as Hdone.
  destruct (for_each_partial add_brand_row (dicts rows1) ∅) as [m o].
  simpl in Hdone. subst o.
  cbn [List.filter bool_decide negb map for_each_partial].
  rewrite bool_decide_eq_false_2 by done. cbn [negb map for_each_partial].
  by rewrite add_brand_row_short.
Qed.

End BrandTable.

Lemma load_brand_mapping_last_wins_witness :
  let fieldnames := [py "品牌编码"; py "通用品牌"] in
  let rows := [[py "ZED"; py "OLD"]; []; [py "ACME"; py "APEX"; py "x"]] in
  let after :=
    load_brand_mapping (Some (fieldnames :: rows ++ [[py " zed"; py "Zenith"]])) in
  after !! py "ZED" = Some (py "ZENITH")
  /\ after !! py "ACME" = load_brand_mapping (Some (fieldnames :: rows)) !! py "ACME".
Proof.
  intros fieldnames rows after.
  assert (py "品牌编码" ∉ @nil str) as H1 by apply not_elem_of_nil.
  assert (py "通用品牌" ∉ @nil str) as H2 by apply not_elem_of_nil.
  assert (Forall (fun row : csv_row => length row <> 1%nat) rows) as H3
    by (repeat constructor; simpl; lia).
  assert (PyStr.upper (PyStr.strip (py " zed")) <> []) as H4 by (by vm_compute).
  destruct (load_brand_mapping_last_wins [] H1 H2 rows (py " zed") (py "Zenith")
              [] H3 H4) as [Ha Hb].
  split; [exact Ha|]. apply Hb. by vm_compute.
Defined.

Lemma load_brand_mapping_stops_at_short_row_witness :
  let fieldnames := [py "品牌编码"; py "通用品牌"] in
  load_brand_mapping
    (Some (fieldnames :: [[py "ZED"; py "ZENITH"]]
             ++ [py "ACME"] :: [[py "BOLT"; py "BOLTCO"]]))
  = load_brand_mapping (Some (fieldnames :: [[py "ZED"; py "ZENITH"]])).
Proof.
  intros fieldnames.
  assert (py "品牌编码" ∉ @nil str) as H1 by apply not_elem_of_nil.
  assert (py "通用品牌" ∉ @nil str) as H2 by apply not_elem_of_nil.
  apply (load_brand_mapping_stops_at_short_row [] H1 H2).
  repeat constructor; simpl; lia.
Defined.

(** ** RecordStore: what compaction leaves *)

Lemma add_existing_long seen row :
  (6 <=? length row)%nat = true -> add_existing seen row = {[take 6 row]} ∪ seen.
Proof. unfold add_existing. by intros ->. Qed.

Lemma add_existing_short seen row :
  (6 <=? length row)%nat = false -> add_existing seen row = seen.
Proof. unfold add_existing. by intros ->. Qed.

(** The loop of [deduplicate_csv] in full: the rows it keeps are rows of
    the file in their order, of at least 6 fields, with keys that are
    pairwise distinct and were not seen before; the set it ends with is the
    one [load_existing_records] builds from the same rows, and from the
    rows kept. *)
Lemma dedup_rows_spec data seen acc :
  exists kept,
    fold_left dedup_row data (seen, acc)
    = (fold_left add_existing data seen, acc ++ kept)
    /\ kept `sublist_of` data
    /\ Forall (fun row => 6 <= length row)%nat kept
    /\ NoDup (map (take 6) kept)
    /\ (forall row, row ∈ kept -> take 6 row ∉ seen)
    /\ fold_left add_existing kept seen = fold_left add_existing data seen.
Proof.
  revert seen acc. induction data as [|row data IH]; intros seen acc;
    cbn [fold_left].
  - exists []. rewrite app_nil_r. repeat split; try done; try constructor.
    by intros ? ?%elem_of_nil.
  - unfold dedup_row at 2.
    destruct (6 <=? length row)%nat eqn:L.
    + rewrite (add_existing_long _ _ L). case_bool_decide as Hin.
      * assert ({[take 6 row]} ∪ seen = seen) as -> by set_solver.
        destruct (IH seen acc) as (kept & -> & Hsub & Hl & Hnd & Hnew & Hk).
        exists kept. repeat split; try done. by apply sublist_cons.
      * destruct (IH ({[take 6 row]} ∪ seen) (acc ++ [row]))
          as (kept & -> & Hsub & Hl & Hnd & Hnew & Hk).
        exists (row :: kept). rewrite <- app_assoc.
        split; [done|]. split; [by apply sublist_skip|].
        split; [constructor; [by apply Nat.leb_le | done]|].
        split.
        { cbn [map]. apply NoDup_cons. split; [|done].
          intros (row' & E & Hrow')%list_elem_of_fmap.
          apply (Hnew row' Hrow'). rewrite <- E. set_solver. }
        split.
        { intros row' [->|Hrow']%elem_of_cons; [done|].
          intros Hs. apply (Hnew row' Hrow'). set_solver. }
        cbn [fold_left]. by rewrite (add_existing_long _ _ L).
    + rewrite (add_existing_short _ _ L).
      destruct (IH seen acc) as (kept & -> & Hsub & Hl & Hnd & Hnew & Hk).
      exists kept. repeat split; try done. by apply sublist_cons.
Qed.

(** Rows of at least 6 fields whose keys are new and pairwise distinct are
    all kept. *)
Lemma dedup_rows_all_kept data seen acc :
  Forall (fun row => 6 <= length row)%nat data ->
  NoDup (map (take 6) data) ->
  (forall row, row ∈ data -> take 6 row ∉ seen) ->
  (fold_left dedup_row data (seen, acc)).2 = acc ++ data.
Proof.
  revert seen acc. induction data as [|row data IH];
    intros seen acc Hl Hnd Hnew; cbn [fold_left].
  - by rewrite app_nil_r.
  - apply Forall_cons in Hl as [Hrow Hl]. cbn [map] in Hnd.
    apply NoDup_cons in Hnd as [Hk Hnd].
    unfold dedup_row at 2. apply Nat.leb_le in Hrow. rewrite Hrow.
    rewrite bool_decide_eq_false_2 by (apply Hnew; by left).
    rewrite IH, <- app_assoc; [done..|].
    intros row' Hrow' [E%elem_of_singleton|Hs]%elem_of_union.
    + apply Hk. rewrite <- E. by apply list_elem_of_fmap_2.
    + apply (Hnew row'); [by right | done].
Qed.

Lemma read_rows_sublist content : read_rows content `sublist_of` content.
Proof.
  destruct content as [|h rest]; simpl; [done|].
  case_bool_decide; simpl; [done | by apply sublist_cons].
Qed.

(** Compaction only deletes rows: the table it leaves is made of rows of
    the table it found, in their order. *)
Theorem compact_only_deletes (content : csv_table) :
  exists content',
    (deduplicate_csv (Some content)).1 = Some content'
    /\ content' `sublist_of` content.
Proof.
  rewrite deduplicate_csv_file.
  destruct (read_rows content) as [|row0 [|row1 data]] eqn:Hread;
    [by exists content..|].
  destruct (dedup_rows_spec (row1 :: data) ∅ [row0]) as (kept & -> & Hsub & _).
  cbv zeta. cbn [snd app].
  destruct (_ =? 0)%nat; [by exists content|].
  exists (row0 :: kept). split; [done|].
  etrans; [|apply read_rows_sublist]. rewrite Hread. by apply sublist_skip.
Qed.

(** After compaction no two data rows of the table have the same 6-field
    key. *)
Theorem compact_keys_distinct (content : csv_table) :
  exists content',
    (deduplicate_csv (Some content)).1 = Some content'
    /\ NoDup (map (take 6) (data_rows content')).
Proof.
  rewrite deduplicate_csv_file.
  destruct (read_rows content) as [|row0 [|row1 data]] eqn:Hread.
  - exists content. unfold data_rows. rewrite Hread. split; [done|constructor].
  - exists content. unfold data_rows. rewrite Hread. split; [done|constructor].
  - destruct (dedup_rows_kept (row1 :: data) ∅ [row0])
      as (seen' & kept & E & _ & Hn & He).
    destruct (dedup_rows_spec (row1 :: data) ∅ [row0])
      as (kept' & E' & _ & _ & Hnd & _).
    rewrite E in E'. injection E' as _ E'. subst kept'.
    rewrite E. cbv zeta. cbn [snd app].
    destruct (Nat.eqb_spec
                (length (row0 :: row1 :: data) - length (row0 :: kept)) 0)
      as [Hz|Hz].
    + exists content. split; [done|]. unfold data_rows. rewrite Hread.
      cbn [tail]. rewrite <- He; [done|]. cbn [length] in *. lia.
    + exists (row0 :: kept). split; [done|].
      unfold data_rows, read_rows. case_bool_decide; simpl; [done|].
      destruct kept as [|k kept]; simpl; [constructor|].
      cbn [map] in Hnd. by apply NoDup_cons in Hnd as [_ Hnd].
Qed.

(** A table whose rows after the first have at least 6 fields and pairwise
    distinct keys is left as it is. *)
Lemma compact_stable row0 kept :
  Forall (fun row => 6 <= length row)%nat kept ->
  NoDup (map (take 6) kept) ->
  (deduplicate_csv (Some (row0 :: kept))).1 = Some (row0 :: kept).
Proof.
  intros Hl Hnd. rewrite deduplicate_csv_file.
  destruct (read_rows (row0 :: kept)) as [|r0 [|r1 data]] eqn:Hread; [done..|].
  assert (Forall (fun row => 6 <= length row)%nat (r1 :: data)
          /\ NoDup (map (take 6) (r1 :: data))) as [Hl' Hnd'].
  { unfold read_rows in Hread. case_bool_decide.
    - simpl in Hread. injection Hread as -> ->. done.
    - simpl in Hread. subst kept. apply Forall_cons in Hl as [_ Hl].
      cbn [map] in Hnd. by apply NoDup_cons in Hnd as [_ Hnd]. }
  cbv zeta. rewrite dedup_rows_all_kept; [|done|done|].
  - cbn [app length]. by rewrite Nat.sub_diag.
  - by intros ? _ ?%elem_of_empty.
Qed.

(** Compaction is idempotent: compacting a compacted table changes
    nothing. *)
Theorem compact_idempotent (file : option csv_table) :
  (deduplicate_csv (deduplicate_csv file).1).1 = (deduplicate_csv file).1.
Proof.
  destruct file as [content|]; [|done].
  pose proof (deduplicate_csv_file content) as E.
  destruct (read_rows content) as [|row0 [|row1 data]] eqn:Hread;
    [by rewrite !E..|].
  destruct (dedup_rows_spec (row1 :: data) ∅ [row0])
    as (kept & Hf & _ & Hl & Hnd & _).
  rewrite Hf in E. cbv zeta in E. cbn [snd app] in E.
  destruct (_ =? 0)%nat.
  - by rewrite !E.
  - rewrite E. by apply compact_stable.
Qed.

(** ** RecordStore: the keys on file *)

(** Compaction loses no key: on a table that starts with a non-empty
    header row, [load_existing_records] finds the same set of 6-field keys
    before and after [deduplicate_csv]. *)
Theorem compact_keeps_existing_keys (header : csv_row) (rest : csv_table) :
  header <> [] ->
  load_existing_records (deduplicate_csv (Some (header :: rest))).1
  = load_existing_records (Some (header :: rest)).
Proof.
  intros Hh. rewrite deduplicate_csv_file.
  assert (read_rows (header :: rest) = header :: rest) as ->.
  { unfold read_rows. by rewrite bool_decide_eq_true_2. }
  destruct rest as [|row1 data]; [done|].
  destruct (dedup_rows_spec (row1 :: data) ∅ [header])
    as (kept & -> & _ & _ & _ & _ & Hk).
  cbv zeta. cbn [snd app].
  destruct (_ =? 0)%nat; [done|].
  unfold load_existing_records. cbn [tail]. exact Hk.
Qed.

Lemma compact_keeps_existing_keys_witness :
  let r1 := [py "M"; py "C"; py "E"; py "ZENITH"; py "ZED"; py "99A"; py "a.png"] in
  let r2 := [py "M"; py "C"; py "E"; py "ZENITH"; py "ZED"; py "99A"; py "b.png"] in
  header_row <> []
  /\ (deduplicate_csv (Some [header_row; r1; r2])).1 = Some [header_row; r1]
  /\ load_existing_records (deduplicate_csv (Some [header_row; r1; r2])).1
     = load_existing_records (Some [header_row; r1; r2]).
Proof.
  intros r1 r2.
  assert (header_row <> []) as H by done.
  split; [exact H|]. split; [by vm_compute|].
  exact (compact_keeps_existing_keys header_row [r1; r2] H).
Defined.




(** ** PipelineOrchestrator: the records of one image, continued *)

Lemma expand_length P : (length (expand P) <= 4)%nat.
Proof.
  rewrite expand_eq.
  repeat match goal with
         | |- context [if ?b then _ else _] => destruct b
         end; simpl; lia.
Qed.

Lemma expand_sublist P v : v ∈ expand P -> v `sublist_of` P.
Proof.
  rewrite expand_eq.
  pose proof (lstrip_char_sublist P zero) as S1.
  pose proof (remove_special_sublist P) as S2.
  assert (PyStr.lstrip_char (remove_special P) zero `sublist_of` P) as S3.
  { etrans; [apply lstrip_char_sublist | exact S2]. }
  repeat match goal with
         | |- context [if ?b then _ else _] => destruct b
         end; cbn [app]; rewrite ?elem_of_cons, ?elem_of_nil; intros Hv;
    repeat match goal with
           | H : _ \/ _ |- _ => destruct H as [->|H]
           | H : False |- _ => destruct H
           end; done.
Qed.

Section AssemblyMore.

Variables main_brand_code convert_code english_name : str.
Variable brand_mapping : gmap str str.
Variable source_file : str.

Local Abbreviation add_variant' :=
  (add_variant main_brand_code convert_code english_name source_file).
Local Abbreviation add_pair' :=
  (add_pair main_brand_code convert_code english_name brand_mapping source_file).

Lemma add_variants_distinct universal_brand brand_code pns st :
  assembly_distinct st ->
  let st' := fold_left (add_variant' universal_brand brand_code) pns st in
  assembly_distinct st'
  /\ (length (new_records st') <= length (new_records st) + length pns)%nat
  /\ logged st' = logged st.
Proof.
  revert st. induction pns as [|pn pns IH]; intros st Hst; cbn [fold_left].
  - split; [done|]. split; [lia|done].
  - set (st1 := add_variant' universal_brand brand_code st pn).
    assert (assembly_distinct st1
            /\ (length (new_records st1) <= S (length (new_records st)))%nat
            /\ logged st1 = logged st) as (H1 & H2 & H3).
    { unfold st1, add_variant. destruct Hst as [Hnd Hseen].
      case_bool_decide as Hin; simpl.
      - split; [done|]. split; [lia|done].
      - split; [|split; [rewrite length_app; simpl; lia | done]].
        split; simpl.
        + rewrite map_app. apply NoDup_app. split; [done|].
          split; [|apply NoDup_singleton].
          intros k Hk ->%list_elem_of_singleton. apply Hin. by apply Hseen.
        + intros k. rewrite map_app, elem_of_union, elem_of_singleton,
            elem_of_app, Hseen. simpl. rewrite list_elem_of_singleton. tauto. }
    destruct (IH st1 H1) as (H4 & H5 & H6).
    split; [done|]. split; [cbn [length]; lia | congruence].
Qed.

Lemma add_pair_distinct st pair :
  assembly_distinct st ->
  assembly_distinct (add_pair' st pair)
  /\ (length (new_records (add_pair' st pair)) <= length (new_records st) + 4)%nat.
Proof.
  intros Hst. destruct pair as [brand_code part_number]. unfold add_pair.
  pose proof (expand_length part_number) as Hlen.
  destruct (brand_mapping !! brand_code) as [u|].
  - destruct (add_variants_distinct u brand_code (expand part_number) st Hst)
      as (H1 & H2 & _). split; [done|lia].
  - set (st0 := {| new_records := new_records st;
                   seen_in_image := seen_in_image st;
                   logged := logged st ++ [unmapped_warning brand_code] |}).
    destruct (add_variants_distinct brand_code brand_code (expand part_number)
                st0 Hst) as (H1 & H2 & _).
    split; [done|]. simpl in H2. lia.
Qed.

Lemma assemble_records_distinct pairs :
  let built :=
    assemble_records main_brand_code convert_code english_name
      brand_mapping source_file pairs in
  assembly_distinct built
  /\ (length (new_records built) <= 4 * length pairs)%nat.
Proof.
  unfold assemble_records.
  set (st0 := {| new_records := []; seen_in_image := ∅; logged := [] |}).
  assert (assembly_distinct st0) as H0.
  { split; simpl; [constructor|]. intros k. set_solver. }
  enough (forall st, assembly_distinct st ->
            assembly_distinct (fold_left add_pair' pairs st)
            /\ (length (new_records (fold_left add_pair' pairs st))
                <= length (new_records st) + 4 * length pairs)%nat) as H.
  { destruct (H st0 H0) as [H1 H2]. split; [done|]. simpl in H2. lia. }
  induction pairs as [|pair pairs IH]; intros st Hst; cbn [fold_left].
  - split; [done|lia].
  - destruct (add_pair_distinct st pair Hst) as [H1 H2].
    destruct (IH _ H1) as [H3 H4]. split; [done|]. cbn [length]. lia.
Qed.

End AssemblyMore.

(** No two records assembled for one image have the same 6-field key,
    whatever variants and repeated pairs the image gives. *)
Theorem assembled_records_distinct
    (main_brand_code convert_code english_name : str)
    (brand_mapping : gmap str str) (source_file : str)
    (part_number_pairs : list (str * str)) :
  NoDup (map key_of
           (new_records
              (assemble_records main_brand_code convert_code english_name
                 brand_mapping source_file part_number_pairs))).
Proof.
  by destruct (assemble_records_distinct main_brand_code convert_code
                 english_name brand_mapping source_file part_number_pairs)
    as [[H _] _].
Qed.

(** An image gives at most 4 records for each extracted pair, and no
    record at all only if no pair was extracted. *)
Theorem assembled_records_count
    (main_brand_code convert_code english_name : str)
    (brand_mapping : gmap str str) (source_file : str)
    (part_number_pairs : list (str * str)) :
  let built :=
    assemble_records main_brand_code convert_code english_name
      brand_mapping source_file part_number_pairs in
  (length (new_records built) <= 4 * length part_number_pairs)%nat
  /\ (new_records built = [] <-> part_number_pairs = []).
Proof.
  intros built. split.
  - by destruct (assemble_records_distinct main_brand_code convert_code
                   english_name brand_mapping source_file part_number_pairs)
      as [_ H].
  - split; [|by intros ->].
    destruct part_number_pairs as [|[bc pn] pairs]; [done|]. intros E.
    destruct (assemble_records_ok main_brand_code convert_code english_name
                brand_mapping source_file ((bc, pn) :: pairs)) as [_ Hall].
    specialize (Hall bc pn (list_elem_of_here _ _)).
    fold built in Hall. rewrite E in Hall. by apply elem_of_nil in Hall.
Qed.

Lemma assembled_records_count_witness :
  let built :=
    assemble_records (py "M") (py "C") (py "E") ∅ (py "a.png")
      [(py "ZED", py "0AB-12")] in
  (length (new_records built) <= 4 * 1)%nat
  /\ new_records built <> [].
Proof.
  intros built.
  destruct (assembled_records_count (py "M") (py "C") (py "E") ∅ (py "a.png")
              [(py "ZED", py "0AB-12")]) as [H1 H2].
  split; [exact H1|]. intros E. apply H2 in E. discriminate E.
Defined.

(** ** PipelineOrchestrator: the fields written *)

Lemma normal_upper_strip s : normal_field (PyStr.upper (PyStr.strip s)).
Proof.
  split; [apply upper_idemp|]. by rewrite strip_upper, strip_idemp.
Qed.

Lemma normal_plain s :
  Forall (fun c => PyStr.isspace c = false /\ PyStr.is_lower c = false) s ->
  normal_field s.
Proof.
  intros H. split.
  - apply upper_no_lower. eapply Forall_impl; [exact H|]. by intros c [_ ?].
  - apply strip_no_space. eapply Forall_impl; [exact H|]. by intros c [? _].
Qed.

Section AssemblyFields.

Variables main_brand_code convert_code english_name : str.
Variable brand_mapping : gmap str str.
Variable source_file : str.

Hypothesis main_normal : normal_field main_brand_code.
Hypothesis convert_normal : normal_field convert_code.
Hypothesis english_normal : normal_field english_name.
Hypothesis mapping_normal :
  forall k v, brand_mapping !! k = Some v -> normal_field v.

Local Abbreviation add_variant' :=
  (add_variant main_brand_code convert_code english_name source_file).
Local Abbreviation add_pair' :=
  (add_pair main_brand_code convert_code english_name brand_mapping source_file).
Local Abbreviation fields_ok :=
  (fun rec : OutputRecord =>
     Forall normal_field (take 6 (row_of rec)) /\ sourceFile rec = source_file).

Lemma add_variants_fields universal_brand brand_code pns st :
  normal_field universal_brand -> normal_field brand_code ->
  Forall normal_field pns ->
  Forall fields_ok (new_records st) ->
  Forall fields_ok
    (new_records (fold_left (add_variant' universal_brand brand_code) pns st)).
Proof.
  intros Hu Hb Hpns. revert st.
  induction Hpns as [|pn pns Hpn _ IH]; intros st Hst; cbn [fold_left]; [done|].
  apply IH. unfold add_variant. case_bool_decide; simpl; [done|].
  apply Forall_app. split; [done|]. constructor; [|constructor].
  split; [|done]. simpl.
  repeat (apply Forall_cons_2; [assumption|]). apply Forall_nil_2.
Qed.

Lemma assemble_records_fields pairs :
  Forall (fun p : str * str =>
            normal_field p.1
            /\ Forall (fun c => PyStr.isspace c = false
                                /\ PyStr.is_lower c = false) p.2) pairs ->
  Forall fields_ok
    (new_records
       (assemble_records main_brand_code convert_code english_name
          brand_mapping source_file pairs)).
Proof.
  unfold assemble_records. intros Hpairs.
  enough (forall st, Forall fields_ok (new_records st) ->
            Forall fields_ok (new_records (fold_left add_pair' pairs st))) as H
    by (apply H; constructor).
  induction Hpairs as [|[bc pn] pairs [Hbc Hpn] _ IH]; intros st Hst;
    cbn [fold_left]; [done|].
  apply IH. unfold add_pair. simpl in Hbc, Hpn.
  assert (Forall normal_field (expand pn)) as Hvs.
  { apply Forall_forall. intros v Hv%expand_sublist. apply normal_plain.
    apply Forall_forall. intros c Hc.
    rewrite Forall_forall in Hpn. apply Hpn. by eapply elem_of_sublist. }
  destruct (brand_mapping !! bc) as [u|] eqn:Hm.
  - apply add_variants_fields; try done. by eapply mapping_normal.
  - by apply add_variants_fields.
Qed.

End AssemblyFields.

Lemma extract_pairs_normal B T :
  Forall (fun p : str * str =>
            normal_field p.1
            /\ Forall (fun c => PyStr.isspace c = false
                                /\ PyStr.is_lower c = false) p.2)
    (extract_part_numbers B T).
Proof.
  apply Forall_forall.
  intros p (Hbc & c & rest & _ & _ & Hall)%extract_part_numbers_shape. split.
  - pose proof (add_brand_codes_ok B _ codes_ok_empty) as (_ & _ & Hcodes).
    rewrite Forall_forall in Hcodes. destruct (Hcodes _ Hbc) as [_ Hfix].
    rewrite <- Hfix. apply normal_upper_strip.
  - eapply Forall_impl; [exact Hall|]. intros x [Hx Hl].
    split; [by apply part_char_not_space | done].
Qed.

(** Every record that [process_image] saves has its six key fields trimmed
    and in upper case, the universal brand included when the mapping is the
    one [load_brand_mapping] loads, and carries the name of the image as
    its source. *)
Theorem process_image_fields_normal
    (regions : list (str * (Z * Z * Z * Z))) (brand_file : option csv_table)
    (service : request -> http_reply) (image : Z * Z * Z * Z -> str)
    (image_name : str) (file : option csv_table) (r : processed) :
  process_image_try regions (load_brand_mapping brand_file) service image
    image_name file = Returned r ->
  exists records,
    records_count r = length records
    /\ output_csv r = (if bool_decide (records <> [])
                       then save_to_csv records file else file)
    /\ Forall (fun rec : OutputRecord =>
                 Forall normal_field (take 6 (row_of rec))
                 /\ sourceFile rec = image_name) records.
Proof.
  unfold process_image_try.
  destruct (for_each _ regions _) as [st|e]; simpl; [|done].
  intros [= <-]. eexists. split; [reflexivity|]. split; [reflexivity|].
  apply assemble_records_fields; try apply normal_upper_strip.
  - intros k v Hkv. apply load_brand_mapping_entries in Hkv. split; tauto.
  - apply extract_pairs_normal.
Qed.

Lemma process_image_fields_normal_witness :
  let regions := [(py "品牌编码", (0, 0, 10, 10)%Z);
                  (py "品牌编码及件号", (0, 10, 10, 20)%Z)] in
  let service := fun req : request =>
    if bool_decide (data_format req = py "text")
    then Reply 200 (Dict (Some 100%Z) (Some (DataText (py "zed 0099-a"))))
    else Reply 200 (Dict (Some 100%Z) (Some (DataItems
           [{| item_text := Some (py " zed "); item_box := None |}]))) in
  let brand_file := Some [[py "品牌编码"; py "通用品牌"]; [py "Zed"; py " zenith "]] in
  exists r,
    process_image_try regions (load_brand_mapping brand_file) service
      (fun _ => []) (py "a.png") None = Returned r
    /\ records_count r = 4%nat
    /\ exists records,
         records_count r = length records
         /\ output_csv r = (if bool_decide (records <> [])
                            then save_to_csv records None else None)
         /\ Forall (fun rec : OutputRecord =>
                      Forall normal_field (take 6 (row_of rec))
                      /\ sourceFile rec = py "a.png") records.
Proof.
  intros regions service brand_file.
  destruct (process_image_try regions (load_brand_mapping brand_file) service
              (fun _ => []) (py "a.png") None) as [r|e] eqn:H.
  - exists r. split; [reflexivity|]. split.
    + vm_compute in H. injection H as <-. reflexivity.
    + exact (process_image_fields_normal regions brand_file service _ _ _ r H).
  - vm_compute in H. discriminate H.
Defined.

(** ** PipelineOrchestrator and RecordStore together *)

(** Records with pairwise distinct keys appended a second time are removed
    again by compaction. *)
Lemma compact_reappended (records : list OutputRecord) :
  NoDup (map key_of records) ->
  (deduplicate_csv
     (Some ((header_row :: map row_of records) ++ map row_of records))).1
  = Some (header_row :: map row_of records).
Proof.
  intros Hnd. rewrite deduplicate_csv_file.
  change (read_rows ((header_row :: map row_of records) ++ map row_of records))
    with (header_row :: (map row_of records ++ map row_of records)).
  destruct records as [|r records]; [reflexivity|].
  remember (r :: records) as rs eqn:Hrs.
  assert (map row_of rs ++ map row_of rs
          = row_of r :: (map row_of records ++ map row_of rs)) as Hshape
    by (by rewrite Hrs).
  rewrite Hshape. cbv zeta. rewrite <- Hshape.
  rewrite fold_left_app.
  destruct (dedup_rows_fresh rs ∅ [header_row] Hnd) as (seen' & -> & Hin & _).
  { intros ? _ ?%elem_of_empty. done. }
  rewrite dedup_rows_seen by exact Hin.
  cbn [snd app].
  match goal with
  | |- context [(?n =? 0)%nat] => destruct (Nat.eqb_spec n 0) as [E|E]
  end; [|reflexivity].
  cbn [length] in E. rewrite !length_app, !length_map in E.
  rewrite Hrs in E. cbn [length] in E. lia.
Qed.

Lemma process_image_try_file regions brand_mapping service image image_name
    file :
  match process_image_try regions brand_mapping service image image_name file,
        process_image_try regions brand_mapping service image image_name None
  with
  | Returned r, Returned r0 =>
      exists records,
        NoDup (map key_of records)
        /\ records_count r = length records
        /\ success r = true
        /\ output_csv r = (if bool_decide (records <> [])
                           then save_to_csv records file else file)
        /\ output_csv r0 = (if bool_decide (records <> [])
                            then save_to_csv records None else None)
        /\ records_count r0 = length records
  | Raised _, Raised _ => True
  | _, _ => False
  end.
Proof.
  unfold process_image_try.
  destruct (for_each _ regions _) as [st|e]; simpl; [|done].
  eexists (new_records (assemble_records _ _ _ _ _ _)).
  split; [|done].
  apply (proj1 (proj1 (assemble_records_distinct _ _ _ _ _ _))).
Qed.

(** Processing the same image a second time, the image not having been
    moved, and compacting leaves the table as it was after the first time:
    the second run adds the same rows and compaction removes them. *)
Theorem process_twice_then_compact
    (regions : list (str * (Z * Z * Z * Z))) (brand_mapping : gmap str str)
    (service : request -> http_reply) (image : Z * Z * Z * Z -> str)
    (image_name : str) :
  let r1 := process_image regions brand_mapping service image image_name None in
  let r2 :=
    process_image regions brand_mapping service image image_name
      (output_csv r1) in
  records_count r2 = records_count r1
  /\ (deduplicate_csv (output_csv r2)).1 = output_csv r1.
Proof.
  intros r1 r2. unfold r2, r1, process_image.
  destruct (process_image_try regions brand_mapping service image image_name
              None) as [r0|e0] eqn:E0.
  - pose proof (process_image_try_file regions brand_mapping service image
                  image_name (output_csv r0)) as H2.
    rewrite E0 in H2.
    destruct (process_image_try regions brand_mapping service image image_name
                (output_csv r0)) as [r|e]; [|done].
    destruct H2 as (records & Hnd & Hc & _ & Ho & Ho0 & Hc0).
    split; [congruence|]. rewrite Ho, Ho0.
    case_bool_decide; [|done].
    rewrite save_to_csv_new, save_to_csv_existing. by apply compact_reappended.
  - simpl. by rewrite E0.
Qed.

(** ** RecordStore and ProcessorThread: the rows of the table *)

Lemma save_to_csv_rows records file :
  file <> Some [] ->
  save_to_csv records file <> Some []
  /\ default [] file `prefix_of` default [] (save_to_csv records file)
  /\ data_count (save_to_csv records file)
     = (data_count file + length records)%nat.
Proof.
  intros Hf. destruct file as [[|h t]|]; [done| |].
  - rewrite save_to_csv_existing. split; [done|]. split.
    + simpl. by exists (map row_of records).
    + unfold data_count. simpl. by rewrite length_app, length_map.
  - rewrite save_to_csv_new. split; [done|]. split.
    + simpl. apply prefix_nil.
    + unfold data_count. simpl. by rewrite length_map.
Qed.

Lemma process_image_and_move_step regions brand_mapping service img file :
  file <> Some [] ->
  let r := process_image_and_move regions brand_mapping service img file in
  output_csv r <> Some []
  /\ default [] file `prefix_of` default [] (output_csv r)
  /\ (data_count file + records_count r <= data_count (output_csv r))%nat
  /\ (move_raises img = false ->
      data_count (output_csv r) = (data_count file + records_count r)%nat)
  /\ (success r = false -> records_count r = 0%nat).
Proof.
  intros Hf r. unfold r, process_image_and_move.
  pose proof (process_image_try_file regions brand_mapping service
                (batch_crops img) (batch_name img) file) as H.
  destruct (process_image_try regions brand_mapping service (batch_crops img)
              (batch_name img) file) as [r0|e].
  - destruct (process_image_try regions brand_mapping service (batch_crops img)
                (batch_name img) None); [|done].
    destruct H as (records & _ & Hc & Hs & Ho & _ & _).
    assert (output_csv r0 <> Some []
            /\ default [] file `prefix_of` default [] (output_csv r0)
            /\ data_count (output_csv r0)
               = (data_count file + records_count r0)%nat) as (H1 & H2 & H3).
    { rewrite Ho, Hc. case_bool_decide as Hr.
      - by apply save_to_csv_rows.
      - subst records. simpl. split; [done|]. split; [done|lia]. }
    destruct (move_raises img); simpl.
    + split; [done|]. split; [done|]. split; [lia|]. split; [done|done].
    + split; [done|]. split; [done|]. split; [lia|]. split; [done|].
      rewrite Hs. done.
  - simpl. split; [done|]. split; [done|]. split; [lia|]. split; [lia|done].
Qed.

(** [process_image] only appends: the table it found is the beginning of
    the table it leaves, which has at least as many more rows as the call
    reports records, and exactly as many when the image could be moved to
    the archive; when the move fails the rows stay written although the
    call reports a failure with no record. *)
Theorem process_image_appends_rows
    (regions : list (str * (Z * Z * Z * Z))) (brand_mapping : gmap str str)
    (service : request -> http_reply) (img : batch_image)
    (file : option csv_table) :
  file <> Some [] ->
  let r := process_image_and_move regions brand_mapping service img file in
  default [] file `prefix_of` default [] (output_csv r)
  /\ (data_count file + records_count r <= data_count (output_csv r))%nat
  /\ (move_raises img = false ->
      data_count (output_csv r) = (data_count file + records_count r)%nat)
  /\ (move_raises img = true -> success r = false /\ records_count r = 0%nat).
Proof.
  intros Hf r.
  destruct (process_image_and_move_step regions brand_mapping service img file Hf)
    as (_ & H1 & H2 & H3 & _).
  split; [done|]. split; [done|]. split; [done|].
  intros Hm. unfold r, process_image_and_move.
  destruct (process_image_try _ _ _ _ _ _); [by rewrite Hm | done].
Qed.

Lemma process_image_appends_rows_witness :
  let regions := [(py "品牌编码", (0, 0, 10, 10)%Z);
                  (py "品牌编码及件号", (0, 10, 10, 20)%Z)] in
  let service := fun req : request =>
    if bool_decide (data_format req = py "text")
    then Reply 200 (Dict (Some 100%Z) (Some (DataText (py "ZED 0099-A"))))
    else Reply 200 (Dict (Some 100%Z) (Some (DataItems
           [{| item_text := Some (py "ZED"); item_box := None |}]))) in
  let img := {| batch_name := py "a.png"; batch_crops := fun _ => [];
                move_raises := true |} in
  let r := process_image_and_move regions ∅ service img None in
  @None csv_table <> Some []
  /\ data_count (output_csv r) = 4%nat
  /\ success r = false /\ records_count r = 0%nat.
Proof.
  intros regions service img r.
  assert (@None csv_table <> Some []) as H by done.
  destruct (process_image_appends_rows regions ∅ service img None H)
    as (_ & _ & _ & Hm).
  split; [exact H|]. split; [by vm_compute|]. by apply Hm.
Defined.

(** ** ProcessorThread: a batch *)

Section BatchFacts.

Variable regions : list (str * (Z * Z * Z * Z)).
Variable brand_mapping : gmap str str.
Variable service : request -> http_reply.

Local Abbreviation run_from' := (run_from regions brand_mapping service).

Lemma run_from_rows running i images total file :
  file <> Some [] ->
  let res := run_from' running i images total file in
  res.2 <> Some []
  /\ default [] file `prefix_of` default [] res.2
  /\ (total <= res.1)%nat
  /\ (data_count file + (res.1 - total) <= data_count res.2)%nat
  /\ (Forall (fun img => move_raises img = false) images ->
      data_count res.2 = (data_count file + (res.1 - total))%nat).
Proof.
  revert i total file. induction images as [|img images IH];
    intros i total file Hf; cbn [run_from].
  - simpl. split; [done|]. split; [done|]. split; [lia|]. split; lia.
  - destruct (running i); simpl.
    2:{ split; [done|]. split; [done|]. split; [lia|]. split; lia. }
    destruct (process_image_and_move_step regions brand_mapping service img
                file Hf) as (H1 & H2 & H3 & H4 & H5).
    set (r := process_image_and_move regions brand_mapping service img file) in *.
    assert ((if success r then (total + records_count r)%nat else total)
            = (total + records_count r)%nat) as ->.
    { destruct (success r); [done|]. rewrite H5 by done. lia. }
    destruct (IH (S i) (total + records_count r)%nat (output_csv r) H1)
      as (G1 & G2 & G3 & G4 & G5).
    split; [done|]. split; [by etrans|]. split; [lia|]. split; [lia|].
    intros Hall. apply Forall_cons in Hall as [Hm Hall].
    rewrite (G5 Hall), (H4 Hm). lia.
Qed.

Lemma run_from_stops running i images1 images2 total file :
  running (i + length images1)%nat = false ->
  run_from' running i (images1 ++ images2) total file
  = run_from' running i images1 total file.
Proof.
  revert i total file. induction images1 as [|img images1 IH];
    intros i total file Hstop; cbn [app run_from].
  - rewrite Nat.add_0_r in Hstop. destruct images2; simpl; [done|].
    by rewrite Hstop.
  - destruct (running i); simpl; [|done]. apply IH.
    rewrite <- Hstop. f_equal. simpl. lia.
Qed.

End BatchFacts.

(** A batch only appends to the table; the total it emits is at most the
    number of rows it appended, and is that number when every image could
    be moved to the archive. *)
Theorem run_total_rows
    (regions : list (str * (Z * Z * Z * Z))) (brand_mapping : gmap str str)
    (service : request -> http_reply) (running : nat -> bool)
    (images : list batch_image) (file : option csv_table) :
  file <> Some [] ->
  let res := run regions brand_mapping service running images file in
  default [] file `prefix_of` default [] res.2
  /\ (data_count file + res.1 <= data_count res.2)%nat
  /\ (Forall (fun img => move_raises img = false) images ->
      data_count res.2 = (data_count file + res.1)%nat).
Proof.
  intros Hf res.
  destruct (run_from_rows regions brand_mapping service running 0 images 0
              file Hf) as (_ & H1 & _ & H2 & H3).
  fold (run regions brand_mapping service running images file) in H1, H2, H3.
  fold res in H1, H2, H3. rewrite Nat.sub_0_r in H2, H3. done.
Qed.

(** A stop takes effect between two images: when the flag is found down
    before the image of some rank, the images from that rank on are not
    processed, and the batch ends as if they were not there. *)
Theorem run_stops_between_images
    (regions : list (str * (Z * Z * Z * Z))) (brand_mapping : gmap str str)
    (service : request -> http_reply) (running : nat -> bool)
    (done_images left_images : list batch_image) (file : option csv_table) :
  running (length done_images) = false ->
  run regions brand_mapping service running (done_images ++ left_images) file
  = run regions brand_mapping service running done_images file.
Proof. intros H. unfold run. by apply run_from_stops. Qed.

Lemma run_total_rows_witness :
  let regions := [(py "品牌编码", (0, 0, 10, 10)%Z);
                  (py "品牌编码及件号", (0, 10, 10, 20)%Z)] in
  let service := fun req : request =>
    if bool_decide (data_format req = py "text")
    then Reply 200 (Dict (Some 100%Z) (Some (DataText (py "ZED 0099-A"))))
    else Reply 200 (Dict (Some 100%Z) (Some (DataItems
           [{| item_text := Some (py "ZED"); item_box := None |}]))) in
  let img name := {| batch_name := name; batch_crops := fun _ => [];
                     move_raises := false |} in
  let images := [img (py "a.png"); img (py "b.png")] in
  let res := run regions ∅ service (fun _ => true) images None in
  @None csv_table <> Some []
  /\ Forall (fun img => move_raises img = false) images
  /\ res.1 = 8%nat
  /\ data_count res.2 = (data_count None + res.1)%nat.
Proof.
  intros regions service img images res.
  assert (@None csv_table <> Some []) as H by done.
  assert (Forall (fun img => move_raises img = false) images) as Hm
    by (by repeat constructor).
  destruct (run_total_rows regions ∅ service (fun _ => true) images None H)
    as (_ & _ & Heq).
  split; [exact H|]. split; [exact Hm|]. split; [by vm_compute|]. by apply Heq.
Defined.

Lemma run_stops_between_images_witness :
  let regions := [(py "品牌编码", (0, 0, 10, 10)%Z);
                  (py "品牌编码及件号", (0, 10, 10, 20)%Z)] in
  let service := fun req : request =>
    if bool_decide (data_format req = py "text")
    then Reply 200 (Dict (Some 100%Z) (Some (DataText (py "ZED 0099-A"))))
    else Reply 200 (Dict (Some 100%Z) (Some (DataItems
           [{| item_text := Some (py "ZED"); item_box := None |}]))) in
  let img name := {| batch_name := name; batch_crops := fun _ => [];
                     move_raises := false |} in
  let running := fun i => (i <? 1)%nat in
  running (length [img (py "a.png")]) = false
  /\ run regions ∅ service running ([img (py "a.png")] ++ [img (py "b.png")]) None
     = run regions ∅ service running [img (py "a.png")] None
  /\ (run regions ∅ service running [img (py "a.png"); img (py "b.png")] None).1
     = 4%nat.
Proof.
  intros regions service img running.
  assert (running (length [img (py "a.png")]) = false) as H by reflexivity.
  split; [exact H|]. split.
  - exact (run_stops_between_images regions ∅ service running
             [img (py "a.png")] [img (py "b.png")] None H).
  - by vm_compute.
Defined.

(** ** RegionConfig: the regions loaded *)

Section RegionFacts.

Variable int : str -> option Z.

Local Abbreviation region_of' := (region_of int).
Local Abbreviation load_regions' := (load_regions int).

Lemma load_regions_app objects1 objects2 regions :
  Forall (fun obj => is_Some (region_of' obj)) objects1 ->
  load_regions' (objects1 ++ objects2) regions
  = load_regions' objects2 (load_regions' objects1 regions).
Proof.
  intros H. revert regions. induction H as [|obj objects1 [[n r] E] _ IH];
    intros regions; cbn [app load_regions]; [done|].
  rewrite E. apply IH.
Qed.

(** An object that cannot be read, for want of a name, of a box, of one of
    the four bounds or of a number in one of them, ends the loading: the
    regions of the objects before it are kept, the objects after it are
    not read, whatever they hold. *)
Theorem parse_xml_regions_stops_at_bad_object
    (objects1 objects2 : list xml_object) (bad : xml_object) :
  Forall (fun obj => is_Some (region_of' obj)) objects1 ->
  region_of' bad = None ->
  parse_xml_regions int (Some (objects1 ++ bad :: objects2))
  = parse_xml_regions int (Some objects1).
Proof.
  intros H Hbad. unfold parse_xml_regions.
  rewrite load_regions_app by done. cbn [load_regions]. by rewrite Hbad.
Qed.

(** The last object of a name decides its rectangle, and leaves the other
    regions as the objects before it set them. *)
Theorem parse_xml_regions_last_wins
    (objects : list xml_object) (obj : xml_object)
    (name : option str) (rectangle : Z * Z * Z * Z) :
  Forall (fun obj => is_Some (region_of' obj)) objects ->
  region_of' obj = Some (name, rectangle) ->
  let before := parse_xml_regions int (Some objects) in
  let after := parse_xml_regions int (Some (objects ++ [obj])) in
  after !! name = Some rectangle
  /\ forall other, other <> name -> after !! other = before !! other.
Proof.
  intros H Hobj before after. unfold after, before, parse_xml_regions.
  rewrite load_regions_app by done. cbn [load_regions]. rewrite Hobj.
  split; [apply lookup_insert_eq|]. intros other Ho. by rewrite lookup_insert_ne.
Qed.

End RegionFacts.

Lemma parse_xml_regions_stops_at_bad_object_witness :
  let box a b c d := Some {| xmin_child := Some (Some (py a));
                             ymin_child := Some (Some (py b));
                             xmax_child := Some (Some (py c));
                             ymax_child := Some (Some (py d)) |} in
  let good name := {| name_child := Some (Some (py name));
                      bndbox_child := box "10" "20" "110" "60" |} in
  let bad := {| name_child := Some (Some (py "x"));
                bndbox_child := box "10" "2O" "110" "60" |} in
  parse_xml_regions int_of_digits (Some ([good "a"] ++ bad :: [good "b"]))
  = parse_xml_regions int_of_digits (Some [good "a"])
  /\ parse_xml_regions int_of_digits (Some [good "a"]) !! Some (py "a")
     = Some (10, 20, 110, 60)%Z.
Proof.
  intros box good bad. split; [|by vm_compute].
  apply (parse_xml_regions_stops_at_bad_object int_of_digits).
  - apply Forall_cons_2; [|apply Forall_nil_2].
    vm_compute. eexists. reflexivity.
  - by vm_compute.
Defined.

Lemma parse_xml_regions_last_wins_witness :
  let box a b c d := Some {| xmin_child := Some (Some (py a));
                             ymin_child := Some (Some (py b));
                             xmax_child := Some (Some (py c));
                             ymax_child := Some (Some (py d)) |} in
  let first := {| name_child := Some (Some (py "a"));
                  bndbox_child := box "10" "20" "110" "60" |} in
  let second := {| name_child := Some (Some (py "a"));
                   bndbox_child := box "1" "2" "3" "4" |} in
  parse_xml_regions int_of_digits (Some ([first] ++ [second])) !! Some (py "a")
  = Some (1, 2, 3, 4)%Z.
Proof.
  intros box first second.
  assert (Forall (fun obj => is_Some (region_of int_of_digits obj)) [first]) as H1.
  { apply Forall_cons_2; [|apply Forall_nil_2].
    vm_compute. eexists. reflexivity. }
  assert (region_of int_of_digits second = Some (Some (py "a"), (1, 2, 3, 4)%Z))
    as H2 by (by vm_compute).
  exact (proj1 (parse_xml_regions_last_wins int_of_digits [first] second _ _
                  H1 H2)).
Defined.
